(** * gcs: upload of gzip-compressed files to Google Cloud Storage

    A shallow embedding of [gcs/gcs.go] (package [gcs]) and the properties
    of its two exposed operations, [Connect] and [Upload]. *)

From Stdlib Require Import String Ascii List Arith ZArith Lia Bool DecimalString.
From stdpp Require Import base gmap strings list.

Local Open Scope string_scope.

(** ** Go strings

    A Go string is a sequence of bytes; [ascii] is an eight-bit character,
    so [string] is used as is.  [s[i:j]] is [slice s i j]. *)

Definition slice (s : string) (i j : nat) : string := substring i (j - i) s.

Fixpoint hasByte (c : ascii) (s : string) : bool :=
  match s with
  | EmptyString => false
  | String a r => Ascii.eqb a c || hasByte c r
  end.

(** ** Package [path] of the Go standard library, as [Upload] uses it *)

Module path.

(** [for len(path) > 0 && path[len(path)-1] == '/' { path = path[0:len(path)-1] }],
    the current path being [path[0:n]]. *)
Fixpoint trimSlashes (n : nat) (p : string) : string :=
  match n with
  | 0 => ""
  | S m =>
      match String.get m p with
      | Some c => if Ascii.eqb c "/" then trimSlashes m p else slice p 0 n
      | None => slice p 0 n
      end
  end.

(** [bytealg.LastIndexByteString(s, c)], scanning the indices below [n]
    downwards; [None] is Go's [-1]. *)
Fixpoint lastIndexBelow (n : nat) (s : string) (c : ascii) : option nat :=
  match n with
  | 0 => None
  | S i =>
      match String.get i s with
      | Some a => if Ascii.eqb a c then Some i else lastIndexBelow i s c
      | None => lastIndexBelow i s c
      end
  end.

Definition lastIndexByte (s : string) (c : ascii) : option nat :=
  lastIndexBelow (String.length s) s c.

(** [path.Base] *)
Definition Base (p : string) : string :=
  if String.eqb p "" then "."
  else
    let p1 := trimSlashes (String.length p) p in
    let p2 := match lastIndexByte p1 "/" with
              | Some i => slice p1 (i + 1) (String.length p1)
              | None => p1
              end in
    if String.eqb p2 "" then "/" else p2.

(** [for i := len(path) - 1; i >= 0 && path[i] != '/'; i-- ]
    with [n = i + 1]. *)
Fixpoint extBelow (n : nat) (p : string) : string :=
  match n with
  | 0 => ""
  | S i =>
      match String.get i p with
      | Some c =>
          if Ascii.eqb c "/" then ""
          else if Ascii.eqb c "." then slice p i (String.length p)
          else extBelow i p
      | None => ""
      end
  end.

(** [path.Ext] *)
Definition Ext (p : string) : string := extBelow (String.length p) p.

End path.

(** The object name [Upload] derives from its [filename] argument
    (gcs.go, lines 109 to 111). *)
Definition objectName (filename : string) : string :=
  let filename := path.Base filename in
  let ext := path.Ext filename in
  slice filename 0 (String.length filename - String.length ext) ++ ".gzip".


(** ** Values of the program *)

Definition bytes := list Byte.byte.

(** Go [error] values.  [storage.ErrBucketNotExist] is a sentinel compared
    with [==]; every other error is told apart by its message only. *)
Inductive error :=
| ErrBucketNotExist
| ErrOther (msg : string).

Definition Error (e : error) : string :=
  match e with
  | ErrBucketNotExist => "storage: bucket doesn't exist"
  | ErrOther msg => msg
  end.

Definition isErrBucketNotExist (e : error) : bool :=
  match e with
  | ErrBucketNotExist => true
  | ErrOther _ => false
  end.

(** [context.Context]; the program only ever builds [context.Background()]. *)
Inductive Context := Background.

(** [*storage.BucketHandle], as built by [client.Bucket(name)]: a reference
    to the client (possibly nil) and the bucket's name. *)
Record BucketHandle := {
  bh_client : option nat;
  bh_name : string
}.

(** [type gcsClient struct] *)
Record gcsClient := {
  projectID : string;
  bucketName : string;
  bucket : option BucketHandle;
  client : option nat;
  ctx : Context
}.

(** [*storage.Writer]: the object it writes to, the two metadata fields
    [Upload] assigns, the bytes it has taken so far, and the error of a
    failed write, which it keeps and returns again from [Close]. *)
Record Writer := {
  w_bucket : BucketHandle;
  w_object : string;
  ContentType : string;
  ContentEncoding : string;
  w_sent : bytes;
  w_err : option error
}.

(** [*gzip.Writer]: the address of the underlying writer and the output it
    still has to flush when it is closed. *)
Record Encoder := {
  z_w : nat;
  z_pending : bytes
}.

(** An object held by the storage service. *)
Record Object := {
  o_contentType : string;
  o_contentEncoding : string;
  o_data : bytes
}.

(** An entry of the local file system. *)
Inductive File :=
| Regular (content : bytes) (readable : bool)
| Directory.

(** The calls that leave the package, in the order they are made. *)
Inductive Call :=
| CallNewClient
| CallAttrs (name : string)
| CallCreate (name project : string)
| CallReadFile (filename : string)
| CallNewWriter (name object : string)
| CallGzipWrite (wc : Writer) (len : nat)
| CallGzipClose (wc : Writer)
| CallWriterClose (wc : Writer).

(** ** The world: package variables, process, file system, storage service *)

Record World := {
  heap : list gcsClient;        (* the gcsClient values allocated so far *)
  singleton : option nat;       (* var singleton *gcsClient *)
  once : bool;                  (* var once sync.Once: Do has run *)
  writers : list Writer;        (* the storage writers allocated so far *)
  environ : gmap string string; (* environment variables *)
  files : gmap string File;     (* local file system *)
  clients : nat;                (* storage clients constructed so far *)
  buckets : gset string;        (* buckets of the storage service *)
  objects : gmap (string * string) Object;
  stdout : string;
  stderr : string;
  calls : list Call
}.

(** What the program does not decide, as a function of the number of
    calls made before: whether a call to the storage library fails
    ([None]: it does not); whether the write to the storage writer that
    [zWriter.Write] makes, and the one that [zWriter.Close] makes to flush
    its output, fails, the encoder having no other way to fail; how many
    bytes of a failed write the writer has taken; whether a close that
    fails leaves an object behind; and the gzip codec, split into the
    output produced while writing and the output flushed on close. *)
Record Env := {
  newClientErr : nat -> option error;
  attrsErr : nat -> string -> option error;
  createErr : nat -> string -> string -> option error;
  gzWriteErr : nat -> option error;
  gzCloseErr : nat -> option error;
  closeErr : nat -> option error;
  delivered : nat -> nat;
  leftBehind : nat -> bool;
  gz_write : bytes -> bytes;
  gz_close : bytes -> bytes;
  gunzip : bytes -> option bytes
}.

Definition gzip (E : Env) (data : bytes) : bytes :=
  (gz_write E data ++ gz_close E data)%list.

Definition gzip_inverse (E : Env) : Prop :=
  forall data, gunzip E (gzip E data) = Some data.

(** Field updates of the world. *)
Definition set_heap (h : list gcsClient) (w : World) : World :=
  {| heap := h; singleton := singleton w; once := once w; writers := writers w;
     environ := environ w; files := files w; clients := clients w;
     buckets := buckets w; objects := objects w; stdout := stdout w;
     stderr := stderr w; calls := calls w |}.

Definition set_singleton (p : option nat) (w : World) : World :=
  {| heap := heap w; singleton := p; once := once w; writers := writers w;
     environ := environ w; files := files w; clients := clients w;
     buckets := buckets w; objects := objects w; stdout := stdout w;
     stderr := stderr w; calls := calls w |}.

Definition set_once (b : bool) (w : World) : World :=
  {| heap := heap w; singleton := singleton w; once := b; writers := writers w;
     environ := environ w; files := files w; clients := clients w;
     buckets := buckets w; objects := objects w; stdout := stdout w;
     stderr := stderr w; calls := calls w |}.

Definition set_writers (ws : list Writer) (w : World) : World :=
  {| heap := heap w; singleton := singleton w; once := once w; writers := ws;
     environ := environ w; files := files w; clients := clients w;
     buckets := buckets w; objects := objects w; stdout := stdout w;
     stderr := stderr w; calls := calls w |}.

Definition set_clients (n : nat) (w : World) : World :=
  {| heap := heap w; singleton := singleton w; once := once w; writers := writers w;
     environ := environ w; files := files w; clients := n;
     buckets := buckets w; objects := objects w; stdout := stdout w;
     stderr := stderr w; calls := calls w |}.

Definition set_buckets (bs : gset string) (w : World) : World :=
  {| heap := heap w; singleton := singleton w; once := once w; writers := writers w;
     environ := environ w; files := files w; clients := clients w;
     buckets := bs; objects := objects w; stdout := stdout w;
     stderr := stderr w; calls := calls w |}.

Definition set_objects (os : gmap (string * string) Object) (w : World) : World :=
  {| heap := heap w; singleton := singleton w; once := once w; writers := writers w;
     environ := environ w; files := files w; clients := clients w;
     buckets := buckets w; objects := os; stdout := stdout w;
     stderr := stderr w; calls := calls w |}.

Definition set_stdout (s : string) (w : World) : World :=
  {| heap := heap w; singleton := singleton w; once := once w; writers := writers w;
     environ := environ w; files := files w; clients := clients w;
     buckets := buckets w; objects := objects w; stdout := s;
     stderr := stderr w; calls := calls w |}.

Definition set_stderr (s : string) (w : World) : World :=
  {| heap := heap w; singleton := singleton w; once := once w; writers := writers w;
     environ := environ w; files := files w; clients := clients w;
     buckets := buckets w; objects := objects w; stdout := stdout w;
     stderr := s; calls := calls w |}.

Definition set_calls (cs : list Call) (w : World) : World :=
  {| heap := heap w; singleton := singleton w; once := once w; writers := writers w;
     environ := environ w; files := files w; clients := clients w;
     buckets := buckets w; objects := objects w; stdout := stdout w;
     stderr := stderr w; calls := cs |}.

(** ** The monad of the program

    A computation transforms the world and either returns a value, ends the
    process ([os.Exit]) or panics (a nil pointer is dereferenced). *)

Inductive Outcome (A : Type) :=
| Ret (a : A)
| Exit (code : Z)
| Panic.
Arguments Ret {A} a.
Arguments Exit {A} code.
Arguments Panic {A}.

Definition M (A : Type) : Type := World -> Outcome A * World.

Definition ret {A} (a : A) : M A := fun w => (Ret a, w).

Definition bind {A B} (m : M A) (k : A -> M B) : M B :=
  fun w =>
    match m w with
    | (Ret a, w') => k a w'
    | (Exit c, w') => (Exit c, w')
    | (Panic, w') => (Panic, w')
    end.

Declare Scope go_scope.
Delimit Scope go_scope with go.
Notation "x <- m ;; k" := (bind m (fun x => k))
  (at level 100, m at next level, right associativity) : go_scope.
Notation "m ;; k" := (bind m (fun _ => k))
  (at level 100, right associativity) : go_scope.
Local Open Scope go_scope.

Definition panic {A} : M A := fun w => (Panic, w).

(** [os.Exit(code)] *)
Definition os_Exit {A} (code : Z) : M A := fun w => (Exit code, w).

Definition newline : string := String (ascii_of_nat 10) "".

(** [fmt.Println] and [fmt.Printf] on an already formatted text. *)
Definition print (s : string) : M unit :=
  fun w => (Ret tt, set_stdout (stdout w ++ s) w).

Definition println (s : string) : M unit := print (s ++ newline).

(** [fmt.Fprintln(os.Stderr, s)] *)
Definition eprintln (s : string) : M unit :=
  fun w => (Ret tt, set_stderr (stderr w ++ s ++ newline) w).

(** The verb [%d] on a non-negative integer. *)
Definition fmt_d (n : nat) : string := NilZero.string_of_uint (Nat.to_uint n).

(** [os.Getenv]: the empty string when the variable is not set. *)
Definition getenv (w : World) (key : string) : string :=
  default "" (environ w !! key).

Definition os_Getenv (key : string) : M string :=
  fun w => (Ret (getenv w key), w).

Definition call (c : Call) : M unit :=
  fun w => (Ret tt, set_calls (calls w ++ [c]) w).

(** The number of calls made so far, the argument of the environment's
    failure functions. *)
Definition now : M nat := fun w => (Ret (length (calls w)), w).

(** Reading and assigning through a [*gcsClient]. *)
Definition load (p : option nat) : M gcsClient :=
  fun w =>
    match p with
    | Some a => match heap w !! a with
                | Some g => (Ret g, w)
                | None => (Panic, w)
                end
    | None => (Panic, w)
    end.

Definition store (p : option nat) (f : gcsClient -> gcsClient) : M unit :=
  fun w =>
    match p with
    | Some a => match heap w !! a with
                | Some g => (Ret tt, set_heap (<[a := f g]> (heap w)) w)
                | None => (Panic, w)
                end
    | None => (Panic, w)
    end.

Definition get_singleton : M (option nat) := fun w => (Ret (singleton w), w).

Definition bucket_of (g : gcsClient) : option BucketHandle := bucket g.

Definition with_projectID (s : string) (g : gcsClient) : gcsClient :=
  {| projectID := s; bucketName := bucketName g; bucket := bucket g;
     client := client g; ctx := ctx g |}.

Definition with_client (c : option nat) (g : gcsClient) : gcsClient :=
  {| projectID := projectID g; bucketName := bucketName g; bucket := bucket g;
     client := c; ctx := ctx g |}.

Definition with_bucket (b : option BucketHandle) (g : gcsClient) : gcsClient :=
  {| projectID := projectID g; bucketName := bucketName g; bucket := b;
     client := client g; ctx := ctx g |}.

Definition with_ContentType (s : string) (wr : Writer) : Writer :=
  {| w_bucket := w_bucket wr; w_object := w_object wr; ContentType := s;
     ContentEncoding := ContentEncoding wr; w_sent := w_sent wr;
     w_err := w_err wr |}.

Definition with_ContentEncoding (s : string) (wr : Writer) : Writer :=
  {| w_bucket := w_bucket wr; w_object := w_object wr; ContentType := ContentType wr;
     ContentEncoding := s; w_sent := w_sent wr; w_err := w_err wr |}.

Definition send (bs : bytes) (wr : Writer) : Writer :=
  {| w_bucket := w_bucket wr; w_object := w_object wr; ContentType := ContentType wr;
     ContentEncoding := ContentEncoding wr; w_sent := (w_sent wr ++ bs)%list;
     w_err := w_err wr |}.

(** The writer keeps the error of a failed write. *)
Definition retain (e : error) (wr : Writer) : Writer :=
  {| w_bucket := w_bucket wr; w_object := w_object wr; ContentType := ContentType wr;
     ContentEncoding := ContentEncoding wr; w_sent := w_sent wr;
     w_err := Some e |}.

(** The object a writer makes of what it has taken. *)
Definition object_of (wr : Writer) : Object :=
  {| o_contentType := ContentType wr; o_contentEncoding := ContentEncoding wr;
     o_data := w_sent wr |}.

(** Reading and assigning through a [*storage.Writer]. *)
Definition loadW (a : nat) : M Writer :=
  fun w =>
    match writers w !! a with
    | Some wr => (Ret wr, w)
    | None => (Panic, w)
    end.

Definition storeW (a : nat) (f : Writer -> Writer) : M unit :=
  fun w =>
    match writers w !! a with
    | Some wr => (Ret tt, set_writers (<[a := f wr]> (writers w)) w)
    | None => (Panic, w)
    end.

(** [&gcsClient{ctx: c}]: the other fields have their zero values. *)
Definition new_gcsClient (c : Context) : M (option nat) :=
  fun w =>
    (Ret (Some (length (heap w))),
     set_heap (heap w ++ [{| projectID := ""; bucketName := ""; bucket := None;
                             client := None; ctx := c |}]) w).

(** [once.Do(f)] *)
Definition once_Do (f : M unit) : M unit :=
  fun w =>
    if once w then (Ret tt, w)
    else bind f (fun _ w' => (Ret tt, set_once true w')) w.

(** The storage service: a bucket is found when it exists, and created
    when it does not exist yet, unless the call fails on its way. *)
Definition service_attrs (E : Env) (t : nat) (bs : gset string) (name : string)
  : option error :=
  match attrsErr E t name with
  | Some e => Some e
  | None => if bool_decide (name ∈ bs) then None else Some ErrBucketNotExist
  end.

Definition service_create (E : Env) (t : nat) (bs : gset string) (name project : string)
  : option error * gset string :=
  match createErr E t name project with
  | Some e => (Some e, bs)
  | None =>
      if bool_decide (name ∈ bs)
      then (Some (ErrOther "googleapi: Error 409: You already own this bucket."), bs)
      else (None, {[name]} ∪ bs)
  end.

(** [ioutil.ReadFile] on the local file system. *)
Definition read_file (fs : gmap string File) (filename : string)
  : bytes * option error :=
  match fs !! filename with
  | Some (Regular data true) => (data, None)
  | Some (Regular _ false) =>
      ([], Some (ErrOther ("open " ++ filename ++ ": permission denied")))
  | Some Directory =>
      ([], Some (ErrOther ("read " ++ filename ++ ": is a directory")))
  | None =>
      ([], Some (ErrOther ("open " ++ filename ++ ": no such file or directory")))
  end.

Section Program.

Variable E : Env.

(** *** The libraries, as far as the program observes them *)

(** [storage.NewClient(ctx)]: a client that did not exist before, or an
    error. *)
Definition storage_NewClient (c : Context) : M (option nat * option error) :=
  t <- now ;;
  call CallNewClient ;;
  match newClientErr E t with
  | Some e => ret (None, Some e)
  | None => fun w => (Ret (Some (clients w), None), set_clients (S (clients w)) w)
  end.

(** [client.Bucket(name)]: no call is made. *)
Definition Client_Bucket (c : option nat) (name : string) : BucketHandle :=
  {| bh_client := c; bh_name := name |}.

(** [bucket.Attrs(ctx)], of which the program keeps the error only. *)
Definition Bucket_Attrs (b : BucketHandle) (c : Context) : M (option error) :=
  match bh_client b with
  | None => panic
  | Some _ =>
      t <- now ;;
      call (CallAttrs (bh_name b)) ;;
      fun w => (Ret (service_attrs E t (buckets w) (bh_name b)), w)
  end.

(** [bucket.Create(ctx, projectID, nil)] *)
Definition Bucket_Create (b : BucketHandle) (c : Context) (project : string)
  : M (option error) :=
  match bh_client b with
  | None => panic
  | Some _ =>
      t <- now ;;
      call (CallCreate (bh_name b) project) ;;
      fun w =>
        let (err, bs) := service_create E t (buckets w) (bh_name b) project in
        (Ret err, set_buckets bs w)
  end.

(** [ioutil.ReadFile(filename)] *)
Definition ioutil_ReadFile (filename : string) : M (bytes * option error) :=
  call (CallReadFile filename) ;;
  fun w => (Ret (read_file (files w) filename), w).

(** [bucket.Object(name).NewWriter(ctx)]: a new writer; nothing is sent
    before the first write. *)
Definition Object_NewWriter (b : option BucketHandle) (name : string) (c : Context)
  : M nat :=
  match b with
  | None => panic
  | Some bh =>
      call (CallNewWriter (bh_name bh) name) ;;
      fun w =>
        (Ret (length (writers w)),
         set_writers (writers w ++ [{| w_bucket := bh; w_object := name;
                                       ContentType := ""; ContentEncoding := "";
                                       w_sent := []; w_err := None |}]) w)
  end.

(** [gzip.NewWriter(wc)]: closed without a write, the encoder emits the
    stream of the empty input. *)
Definition gzip_NewWriter (wc : nat) : Encoder :=
  {| z_w := wc; z_pending := gzip E [] |}.

(** [wc.Write(chunk)], the write the encoder makes to its only sink.  A
    writer that keeps an error takes nothing more and returns that error;
    a write that fails ([fault]) leaves the first [taken] bytes of the
    chunk with the writer, which keeps the error. *)
Definition Writer_Write (wc : nat) (chunk : bytes) (fault : option error) (taken : nat)
  : M (option error) :=
  wr <- loadW wc ;;
  match w_err wr with
  | Some e => ret (Some e)
  | None =>
      match fault with
      | Some e =>
          storeW wc (fun wr => retain e (send (firstn taken chunk) wr)) ;;
          ret (Some e)
      | None => storeW wc (send chunk) ;; ret None
      end
  end.

(** [zWriter.Write(data)], the first write on the encoder: it fails when
    its write to the writer fails. *)
Definition gzip_Write (z : Encoder) (data : bytes) : M (Encoder * nat * option error) :=
  wr <- loadW (z_w z) ;;
  t <- now ;;
  call (CallGzipWrite wr (length data)) ;;
  err <- Writer_Write (z_w z) (gz_write E data) (gzWriteErr E t) (delivered E t) ;;
  match err with
  | Some e => ret (z, 0, Some e)
  | None =>
      ret ({| z_w := z_w z; z_pending := gz_close E data |}, length data, None)
  end.

(** [zWriter.Close()]: it flushes the pending output to the writer and
    fails when that write fails. *)
Definition gzip_Close (z : Encoder) : M (option error) :=
  wr <- loadW (z_w z) ;;
  t <- now ;;
  call (CallGzipClose wr) ;;
  Writer_Write (z_w z) (z_pending z) (gzCloseErr E t) (delivered E t).

(** What [wc.Close()] returns: the error the writer keeps, or else the
    outcome of the close itself. *)
Definition close_result (t : nat) (wr : Writer) : option error :=
  match w_err wr with
  | Some e => Some e
  | None => closeErr E t
  end.

(** [wc.Close()]: the object exists in the service once the close
    succeeds; whether a close that fails leaves an object made of what the
    writer has taken is not for the program to decide. *)
Definition Writer_Close (wc : nat) : M (option error) :=
  wr <- loadW wc ;;
  t <- now ;;
  call (CallWriterClose wr) ;;
  fun w =>
    (Ret (close_result t wr),
     match close_result t wr with
     | Some _ =>
         if leftBehind E t
         then set_objects (<[(bh_name (w_bucket wr), w_object wr) := object_of wr]>
                             (objects w)) w
         else w
     | None =>
         set_objects (<[(bh_name (w_bucket wr), w_object wr) := object_of wr]>
                        (objects w)) w
     end).

(** *** The package *)

(** [func createClient() *gcsClient] *)
Definition createClient : M (option nat) :=
  once_Do (p <- new_gcsClient Background ;;
           fun w => (Ret tt, set_singleton p w)) ;;
  get_singleton.

(** [func Connect()] *)
Definition Connect : M unit :=
  projectID <- os_Getenv "GOOGLE_CLOUD_PROJECT" ;;
  (if String.eqb projectID ""
   then eprintln "GOOGLE_CLOUD_PROJECT environment variable must be set." ;;
        os_Exit 1
   else ret tt) ;;
  gcsCredentials <- os_Getenv "GOOGLE_APPLICATION_CREDENTIALS" ;;
  (if String.eqb gcsCredentials ""
   then eprintln "GOOGLE_APPLICATION_CREDENTIALS environment variable must be set." ;;
        os_Exit 1
   else ret tt) ;;
  gcs <- createClient ;;
  store gcs (with_projectID projectID) ;;
  p <- get_singleton ;;
  s <- load p ;;
  r <- storage_NewClient (ctx s) ;;
  match r with
  | (_, Some err) =>
      eprintln ("Unable to create GCS Client: " ++ Error err) ;;
      os_Exit 1
  | (client, None) => store gcs (with_client client)
  end.

(** The end of [setBucket]: [singleton.bucket = bucket; return nil]. *)
Definition bindBucket (b : BucketHandle) : M (option error) :=
  p <- get_singleton ;;
  store p (with_bucket (Some b)) ;;
  ret None.

(** [func setBucket(name string) error] *)
Definition setBucket (name : string) : M (option error) :=
  p <- get_singleton ;;
  s <- load p ;;
  let bucket := Client_Bucket (client s) name in
  err <- Bucket_Attrs bucket (ctx s) ;;
  match err with
  | Some err =>
      if isErrBucketNotExist err then
        print ("Creating bucket " ++ name ++ newline) ;;
        p <- get_singleton ;;
        s <- load p ;;
        err <- Bucket_Create bucket (ctx s) (projectID s) ;;
        match err with
        | Some err =>
            println ("Error creating bucket " ++ Error err) ;;
            ret (Some err)
        | None => bindBucket bucket
        end
      else
        println (Error err) ;;
        ret (Some err)
  | None => bindBucket bucket
  end.

(** [func Upload(bucket string, filename string) error] *)
Definition Upload (bucket filename : string) : M (option error) :=
  err <- setBucket bucket ;;
  match err with
  | Some err =>
      println ("GCS: Error setting bucket " ++ Error err) ;;
      ret (Some err)
  | None =>
      r <- ioutil_ReadFile filename ;;
      match r with
      | (_, Some err) =>
          println ("GCS: Error reading file for upload " ++ Error err) ;;
          ret (Some err)
      | (data, None) =>
          let name := objectName filename in
          print ("GCS: Object name " ++ name ++ newline) ;;
          p <- get_singleton ;;
          s <- load p ;;
          wc <- Object_NewWriter (bucket_of s) name (ctx s) ;;
          storeW wc (with_ContentType "text/plain") ;;
          storeW wc (with_ContentEncoding "gzip") ;;
          println "GCS: Successfully created gcs writer" ;;
          let zWriter := gzip_NewWriter wc in
          r <- gzip_Write zWriter data ;;
          match r with
          | (_, _, Some err) =>
              println ("GCS: Error compressing file " ++ Error err) ;;
              ret (Some err)
          | (zWriter, nBytes, None) =>
              _ <- gzip_Close zWriter ;;
              print ("GCS: Wrote " ++ fmt_d nBytes ++ " bytes" ++ newline) ;;
              err <- Writer_Close wc ;;
              match err with
              | Some err =>
                  println ("GCS: Error on context writer close " ++ Error err) ;;
                  ret (Some err)
              | None => ret None
              end
          end
      end
  end.

End Program.

(** ** Observations on worlds *)

(** The calls made from world [w] to world [w']. *)
Definition made (w w' : World) : list Call := drop (length (calls w)) (calls w').

Definition is_create (c : Call) : bool :=
  match c with
  | CallCreate _ _ => true
  | _ => false
  end.

(** The number of bucket creation calls among [cs]. *)
Definition creations (cs : list Call) : nat := length (List.filter is_create cs).

(** The storage writer a call works on, in the state the call finds it. *)
Definition call_writer (c : Call) : option Writer :=
  match c with
  | CallGzipWrite wr _ | CallGzipClose wr | CallWriterClose wr => Some wr
  | _ => None
  end.

(** The calls that open or use a storage writer. *)
Definition uses_writer (c : Call) : bool :=
  match c with
  | CallNewWriter _ _ | CallGzipWrite _ _ | CallGzipClose _ | CallWriterClose _ => true
  | _ => false
  end.

(** [ioutil.ReadFile] fails on a path that is missing, not readable or a
    directory. *)
Definition unreadable (fs : gmap string File) (filename : string) : Prop :=
  fs !! filename = None \/
  (exists data, fs !! filename = Some (Regular data false)) \/
  fs !! filename = Some Directory.

(** A writer of [Upload] once its two metadata fields are assigned. *)
Definition tagged (bh : BucketHandle) (obj : string) (sent : bytes) : Writer :=
  {| w_bucket := bh; w_object := obj; ContentType := "text/plain";
     ContentEncoding := "gzip"; w_sent := sent; w_err := None |}.

(** The writer of [Upload] after the write of [data] and the close of the
    encoder at time [t]: it holds the whole compressed file, or, when the
    flush has failed, the part it has taken and the error. *)
Definition flushed (E : Env) (t : nat) (bh : BucketHandle) (obj : string)
           (data : bytes) : Writer :=
  match gzCloseErr E t with
  | Some e =>
      retain e (tagged bh obj
                  (gz_write E data ++ firstn (delivered E t) (gz_close E data))%list)
  | None => tagged bh obj (gzip E data)
  end.

Definition well_tagged (wr : Writer) : Prop :=
  ContentType wr = "text/plain" /\ ContentEncoding wr = "gzip".

(** The value [singleton] points to. *)
Definition handle (w : World) : option gcsClient :=
  match singleton w with
  | Some a => heap w !! a
  | None => None
  end.

(** At most one [gcsClient] is ever allocated, by the first run of
    [createClient], and [singleton] points to it from then on. *)
Definition one_handle (w : World) : Prop :=
  if once w then singleton w = Some 0 /\ length (heap w) = 1
  else singleton w = None /\ heap w = [].

(** A computation that writes nothing to standard error, constructs no
    storage client and leaves the environment and the files alone. *)
Definition leaves_alone {A} (m : M A) : Prop :=
  forall w,
    stderr (snd (m w)) = stderr w /\ environ (snd (m w)) = environ w /\
    files (snd (m w)) = files w /\ clients (snd (m w)) = clients w.

(** A storage service that answers every call and a writer that takes
    the write of the data and its close; the flush of the encoder is
    [reliable_encoder]. *)
Definition reliable_storage (E : Env) : Prop :=
  (forall t name, attrsErr E t name = None) /\
  (forall t name project, createErr E t name project = None) /\
  (forall t, gzWriteErr E t = None) /\
  (forall t, closeErr E t = None).

(** An encoder whose flush on close never fails. *)
Definition reliable_encoder (E : Env) : Prop :=
  forall t, gzCloseErr E t = None.

(** The object [Upload] is to store for a file with content [data]. *)
Definition stored (E : Env) (data : bytes) : Object :=
  {| o_contentType := "text/plain"; o_contentEncoding := "gzip";
     o_data := gzip E data |}.

(** ** A concrete environment

    A process that has just started, a storage library that never fails,
    and a small codec that frames the data between a two-byte header and a
    one-byte trailer. *)

Module Sim.

Definition header : bytes := [Byte.x1f; Byte.x8b].
Definition trailer : bytes := [Byte.x03].

Definition frame_write (data : bytes) : bytes := (header ++ data)%list.
Definition frame_close (data : bytes) : bytes := trailer.

Definition unframe (bs : bytes) : option bytes :=
  match bs with
  | Byte.x1f :: Byte.x8b :: r =>
      match rev r with
      | Byte.x03 :: m => Some (rev m)
      | _ => None
      end
  | _ => None
  end.

Definition reliable : Env :=
  {| newClientErr := fun _ => None;
     attrsErr := fun _ _ => None;
     createErr := fun _ _ _ => None;
     gzWriteErr := fun _ => None;
     gzCloseErr := fun _ => None;
     closeErr := fun _ => None;
     delivered := fun _ => 0;
     leftBehind := fun _ => false;
     gz_write := frame_write;
     gz_close := frame_close;
     gunzip := unframe |}.

Definition start (vars : gmap string string) (fs : gmap string File) : World :=
  {| heap := []; singleton := None; once := false; writers := [];
     environ := vars; files := fs; clients := 0; buckets := ∅; objects := ∅;
     stdout := ""; stderr := ""; calls := [] |}.

Definition vars : gmap string string :=
  <["GOOGLE_CLOUD_PROJECT" := "proj"]>
    (<["GOOGLE_APPLICATION_CREDENTIALS" := "/etc/key.json"]> ∅).

Definition notes : bytes := [Byte.x68; Byte.x69; Byte.x0a].

Definition disk : gmap string File :=
  <["notes.txt" := Regular notes true]>
    (<["secret.txt" := Regular notes false]>
       (<["dir" := Directory]> ∅)).

(** The world after a successful [Connect]. *)
Definition connected : World := snd (Connect reliable (start vars disk)).

(** The [gcsClient] as [Connect] leaves it. *)
Definition handle0 : gcsClient :=
  {| projectID := "proj"; bucketName := ""; bucket := None; client := Some 0;
     ctx := Background |}.

(** The world after a second [Connect]. *)
Definition reconnected : World := snd (Connect reliable connected).

(** A service that refuses to create buckets. *)
Definition forbidden : error := ErrOther "googleapi: Error 403: Forbidden".

Definition denied : Env :=
  {| newClientErr := fun _ => None;
     attrsErr := fun _ _ => None;
     createErr := fun _ _ _ => Some forbidden;
     gzWriteErr := fun _ => None;
     gzCloseErr := fun _ => None;
     closeErr := fun _ => None;
     delivered := fun _ => 0;
     leftBehind := fun _ => false;
     gz_write := frame_write;
     gz_close := frame_close;
     gunzip := unframe |}.

(** The worlds after a first and a second refused [setBucket]. *)
Definition refused : World := snd (setBucket denied "my-bucket" connected).
Definition refused_again : World := snd (setBucket denied "my-bucket" refused).

(** An existence check that cannot reach the service. *)
Definition unreachable : error := ErrOther "dial tcp: i/o timeout".

Definition offline : Env :=
  {| newClientErr := fun _ => None;
     attrsErr := fun _ _ => Some unreachable;
     createErr := fun _ _ _ => None;
     gzWriteErr := fun _ => None;
     gzCloseErr := fun _ => None;
     closeErr := fun _ => None;
     delivered := fun _ => 0;
     leftBehind := fun _ => false;
     gz_write := frame_write;
     gz_close := frame_close;
     gunzip := unframe |}.

(** An encoder whose close fails: the writer refuses the flush. *)
Definition broken : error := ErrOther "gzip: flush failed".

Definition lossy : Env :=
  {| newClientErr := fun _ => None;
     attrsErr := fun _ _ => None;
     createErr := fun _ _ _ => None;
     gzWriteErr := fun _ => None;
     gzCloseErr := fun _ => Some broken;
     closeErr := fun _ => None;
     delivered := fun _ => 0;
     leftBehind := fun _ => false;
     gz_write := frame_write;
     gz_close := frame_close;
     gunzip := unframe |}.

(** A storage library that cannot construct a client. *)
Definition no_credentials : error :=
  ErrOther "dialing: google: could not find default credentials".

Definition clientless : Env :=
  {| newClientErr := fun _ => Some no_credentials;
     attrsErr := fun _ _ => None;
     createErr := fun _ _ _ => None;
     gzWriteErr := fun _ => None;
     gzCloseErr := fun _ => None;
     closeErr := fun _ => None;
     delivered := fun _ => 0;
     leftBehind := fun _ => false;
     gz_write := frame_write;
     gz_close := frame_close;
     gunzip := unframe |}.

(** An encoder whose write fails, and a writer whose close fails. *)
Definition reset : error := ErrOther "write: connection reset by peer".

Definition stalled : Env :=
  {| newClientErr := fun _ => None;
     attrsErr := fun _ _ => None;
     createErr := fun _ _ _ => None;
     gzWriteErr := fun _ => Some reset;
     gzCloseErr := fun _ => None;
     closeErr := fun _ => None;
     delivered := fun _ => 0;
     leftBehind := fun _ => false;
     gz_write := frame_write;
     gz_close := frame_close;
     gunzip := unframe |}.

Definition rejected : Env :=
  {| newClientErr := fun _ => None;
     attrsErr := fun _ _ => None;
     createErr := fun _ _ _ => None;
     gzWriteErr := fun _ => None;
     gzCloseErr := fun _ => None;
     closeErr := fun _ => Some reset;
     delivered := fun _ => 0;
     leftBehind := fun _ => false;
     gz_write := frame_write;
     gz_close := frame_close;
     gunzip := unframe |}.

(** The world after [setBucket] has created the bucket. *)
Definition resolved : World := snd (setBucket reliable "my-bucket" connected).

(** The world after an upload in which nothing fails. *)
Definition uploaded : World :=
  snd (Upload reliable "my-bucket" "notes.txt" connected).

(** A file system with three readable files, two of which get the same
    object name, and the world after a successful [Connect] on it. *)
Definition memo : bytes := [Byte.x6d; Byte.x65; Byte.x6d; Byte.x6f].

Definition shelf : gmap string File :=
  <["a/notes.md" := Regular memo true]>
    (<["b/readme.txt" := Regular memo true]> disk).

Definition shelved : World := snd (Connect reliable (start vars shelf)).

Definition my_bucket : BucketHandle :=
  {| bh_client := Some 0; bh_name := "my-bucket" |}.

End Sim.

(** * Properties *)

(** ** Strings and slices *)

Section Strings.

Lemma substring_all (s : string) : substring 0 (String.length s) s = s.
Proof. induction s as [|a r IH]; simpl; [reflexivity | now rewrite IH]. Qed.

Lemma substring_nothing (s : string) : substring 0 0 s = "".
Proof. destruct s; reflexivity. Qed.

Lemma append_String (a : ascii) (s t : string) :
  String a s ++ t = String a (s ++ t).
Proof. reflexivity. Qed.

Lemma append_empty_r (s : string) : s ++ "" = s.
Proof.
  induction s as [|a r IH]; [reflexivity | now rewrite append_String, IH].
Qed.

Lemma slice_whole (s : string) : slice s 0 (String.length s) = s.
Proof. unfold slice. rewrite Nat.sub_0_r. apply substring_all. Qed.

Lemma slice_split (s : string) (i : nat) :
  i <= String.length s ->
  slice s 0 i ++ slice s i (String.length s) = s.
Proof.
  unfold slice. rewrite Nat.sub_0_r. revert i.
  induction s as [|a r IH]; intros i Hi; simpl in *.
  - replace i with 0 by lia. reflexivity.
  - destruct i as [|i]; simpl.
    + now rewrite substring_all.
    + rewrite append_String, IH by lia. reflexivity.
Qed.

Lemma length_slice (s : string) (i : nat) :
  i <= String.length s ->
  String.length (slice s i (String.length s)) = String.length s - i.
Proof.
  unfold slice. revert i.
  induction s as [|a r IH]; intros i Hi; simpl in *.
  - now destruct i.
  - destruct i as [|i]; simpl.
    + now rewrite substring_all.
    + apply IH. lia.
Qed.

Lemma get_lt (s : string) (i : nat) :
  i < String.length s -> exists c, String.get i s = Some c.
Proof.
  revert i. induction s as [|a r IH]; intros i Hi; simpl in *; [lia|].
  destruct i as [|i]; [eauto | apply IH; lia].
Qed.

Lemma get_ge (s : string) (i : nat) :
  String.length s <= i -> String.get i s = None.
Proof.
  revert i. induction s as [|a r IH]; intros i Hi; simpl in *.
  - now destruct i.
  - destruct i as [|i]; [lia | apply IH; lia].
Qed.

Lemma get_slice_tail (s : string) (i j : nat) :
  String.get j (slice s i (String.length s)) = String.get (j + i) s.
Proof.
  unfold slice.
  destruct (Nat.lt_ge_cases j (String.length s - i)) as [H|H].
  - now apply substring_correct1.
  - rewrite substring_correct2 by assumption.
    symmetry. apply get_ge. lia.
Qed.

Lemma hasByte_false (c : ascii) (s : string) :
  hasByte c s = false <-> forall j, String.get j s <> Some c.
Proof.
  induction s as [|a r IH]; simpl.
  - split; [intros _ j; now destruct j | reflexivity].
  - rewrite orb_false_iff, IH. split.
    + intros [Ha Hr] [|j]; [|apply Hr].
      intros [= ->]. now rewrite Ascii.eqb_refl in Ha.
    + intros H. split.
      * destruct (Ascii.eqb_spec a c) as [->|]; [|reflexivity].
        now specialize (H 0).
      * intros j. apply (H (S j)).
Qed.

End Strings.

(** ** [path.Base] and [path.Ext] *)

Section Paths.

Import path.

Lemma lastIndexBelow_Some (n : nat) (s : string) (c : ascii) (i : nat) :
  lastIndexBelow n s c = Some i ->
  i < n /\ forall j, i < j < n -> String.get j s <> Some c.
Proof.
  induction n as [|n IH]; simpl; [discriminate|].
  destruct (String.get n s) as [a|] eqn:Hn.
  - destruct (Ascii.eqb_spec a c) as [->|Hne].
    + intros [= <-]. split; [lia | intros j Hj; lia].
    + intros H. destruct (IH H) as [Hlt Hall]. split; [lia|].
      intros j Hj. destruct (Nat.eq_dec j n) as [->|]; [|apply Hall; lia].
      rewrite Hn. congruence.
  - intros H. destruct (IH H) as [Hlt Hall]. split; [lia|].
    intros j Hj. destruct (Nat.eq_dec j n) as [->|]; [|apply Hall; lia].
    rewrite Hn. discriminate.
Qed.

Lemma lastIndexBelow_None (n : nat) (s : string) (c : ascii) :
  lastIndexBelow n s c = None ->
  forall j, j < n -> String.get j s <> Some c.
Proof.
  induction n as [|n IH]; simpl; [intros _ j Hj; lia|].
  destruct (String.get n s) as [a|] eqn:Hn.
  - destruct (Ascii.eqb_spec a c) as [->|Hne]; [discriminate|].
    intros H j Hj. destruct (Nat.eq_dec j n) as [->|]; [|apply IH; [assumption | lia]].
    rewrite Hn. congruence.
  - intros H j Hj. destruct (Nat.eq_dec j n) as [->|]; [|apply IH; [assumption | lia]].
    rewrite Hn. discriminate.
Qed.

(** A base name is the root or has no slash. *)
Lemma Base_no_slash (p : string) :
  Base p = "/" \/ hasByte "/" (Base p) = false.
Proof.
  unfold Base. destruct (String.eqb p ""); [now right|].
  set (p1 := trimSlashes (String.length p) p).
  destruct (lastIndexByte p1 "/") as [i|] eqn:Hi.
  - destruct (String.eqb _ ""); [now left|]. right.
    apply hasByte_false. intros j. rewrite get_slice_tail.
    apply lastIndexBelow_Some in Hi. destruct Hi as [Hlt Hall].
    destruct (Nat.lt_ge_cases (j + (i + 1)) (String.length p1)) as [H|H].
    + apply Hall. lia.
    + rewrite get_ge by assumption. discriminate.
  - destruct (String.eqb p1 ""); [now left|]. right.
    apply hasByte_false. intros j.
    destruct (Nat.lt_ge_cases j (String.length p1)) as [H|H].
    + now apply (lastIndexBelow_None _ _ _ Hi).
    + rewrite get_ge by assumption. discriminate.
Qed.

(** The extension is empty or a suffix that starts inside the path. *)
Lemma extBelow_suffix (n : nat) (p : string) :
  n <= String.length p ->
  extBelow n p = "" \/
  exists i, i < String.length p /\ extBelow n p = slice p i (String.length p).
Proof.
  induction n as [|n IH]; simpl; intros Hn; [now left|].
  destruct (String.get n p) as [c|]; [|now left].
  destruct (Ascii.eqb c "/"); [now left|].
  destruct (Ascii.eqb c ".").
  - right. exists n. split; [lia | reflexivity].
  - apply IH. lia.
Qed.

Lemma Ext_suffix (p : string) :
  slice p 0 (String.length p - String.length (Ext p)) ++ Ext p = p.
Proof.
  unfold Ext.
  destruct (extBelow_suffix (String.length p) p (le_n _)) as [H|(i & Hi & H)];
    rewrite H.
  - simpl. rewrite Nat.sub_0_r, slice_whole. apply append_empty_r.
  - rewrite length_slice by lia.
    replace (String.length p - (String.length p - i)) with i by lia.
    apply slice_split. lia.
Qed.

(** A name that starts with its only dot and has no slash is its own
    extension. *)
Lemma extBelow_leading_dot (n : nat) (b : string) :
  0 < n <= String.length b ->
  String.get 0 b = Some "."%char ->
  (forall j, 0 < j < n ->
             String.get j b <> Some "/"%char /\ String.get j b <> Some "."%char) ->
  extBelow n b = b.
Proof.
  induction n as [|n IH]; intros Hn H0 Hall; [lia|]. simpl.
  destruct n as [|n].
  - rewrite H0. simpl. apply slice_whole.
  - destruct (get_lt b (S n)) as [c Hc]; [lia|]. rewrite Hc.
    destruct (Hall (S n)) as [Hs Hd]; [lia|]. rewrite Hc in Hs, Hd.
    destruct (Ascii.eqb_spec c "/") as [->|_]; [congruence|].
    destruct (Ascii.eqb_spec c ".") as [->|_]; [congruence|].
    apply IH; [lia | assumption | intros j Hj; apply Hall; lia].
Qed.

Lemma Ext_leading_dot (rest : string) :
  hasByte "." rest = false -> hasByte "/" rest = false ->
  Ext (String "." rest) = String "." rest.
Proof.
  intros Hd Hs. unfold Ext. apply extBelow_leading_dot.
  - simpl. lia.
  - reflexivity.
  - intros [|j] Hj; [lia|]. simpl.
    split; [apply (proj1 (hasByte_false _ _) Hs) | apply (proj1 (hasByte_false _ _) Hd)].
Qed.

End Paths.

(** ** The object name *)

Section ObjectName.

Import path.

Lemma length_append (s t : string) :
  String.length (s ++ t) = String.length s + String.length t.
Proof.
  induction s as [|a r IH]; [reflexivity|].
  rewrite append_String. simpl. now rewrite IH.
Qed.

Lemma get_append_r (s t : string) (i : nat) :
  String.get (String.length s + i) (s ++ t) = String.get i t.
Proof. rewrite Nat.add_comm. symmetry. apply append_correct2. Qed.

Lemma slice_append_r (s t : string) :
  slice (s ++ t) (String.length s) (String.length (s ++ t)) = t.
Proof.
  apply get_correct. intros j.
  now rewrite get_slice_tail, Nat.add_comm, get_append_r.
Qed.

Lemma lastIndexBelow_found (n : nat) (s : string) (c : ascii) (i : nat) :
  i < n -> String.get i s = Some c ->
  (forall j, i < j < n -> String.get j s <> Some c) ->
  lastIndexBelow n s c = Some i.
Proof.
  induction n as [|n IH]; intros Hi Hc Hall; [lia|]. simpl.
  destruct (Nat.eq_dec i n) as [->|Hne].
  - now rewrite Hc, Ascii.eqb_refl.
  - assert (Hn : String.get n s <> Some c) by (apply Hall; lia).
    assert (IH' : lastIndexBelow n s c = Some i)
      by (apply IH; [lia | assumption | intros j Hj; apply Hall; lia]).
    destruct (String.get n s) as [a|]; [|assumption].
    destruct (Ascii.eqb_spec a c) as [->|_]; [congruence | assumption].
Qed.

Lemma lastIndexBelow_absent (n : nat) (s : string) (c : ascii) :
  (forall j, j < n -> String.get j s <> Some c) ->
  lastIndexBelow n s c = None.
Proof.
  induction n as [|n IH]; intros Hall; [reflexivity|]. simpl.
  assert (Hn : String.get n s <> Some c) by (apply Hall; lia).
  assert (IH' : lastIndexBelow n s c = None)
    by (apply IH; intros j Hj; apply Hall; lia).
  destruct (String.get n s) as [a|]; [|assumption].
  destruct (Ascii.eqb_spec a c) as [->|_]; [congruence | assumption].
Qed.

(** No trailing slash: nothing is trimmed. *)
Lemma trimSlashes_none (p : string) :
  (forall c, String.get (String.length p - 1) p = Some c -> c <> "/"%char) ->
  trimSlashes (String.length p) p = p.
Proof.
  intros H. destruct (String.length p) as [|m] eqn:Hlen.
  - destruct p; [reflexivity | discriminate].
  - simpl in *. rewrite Nat.sub_0_r in H.
    destruct (String.get m p) as [c|].
    + destruct (Ascii.eqb_spec c "/") as [->|_]; [now destruct (H _ eq_refl)|].
      rewrite <- Hlen. apply slice_whole.
    + rewrite <- Hlen. apply slice_whole.
Qed.

(** The directory components are stripped: after the last slash comes the
    base name. *)
Lemma Base_strips_directory (dir file : string) :
  file <> "" -> hasByte "/" file = false ->
  Base (dir ++ "/" ++ file) = file.
Proof.
  intros Hne Hs. pose proof (proj1 (hasByte_false _ _) Hs) as Hfile.
  assert (Hlen : 0 < String.length file) by (destruct file; simpl; [congruence | lia]).
  set (p := dir ++ "/" ++ file).
  assert (Hp : String.length p = String.length dir + S (String.length file)).
  { unfold p. rewrite !length_append. reflexivity. }
  assert (Hget : forall j, String.get (String.length dir + S j) p = String.get j file).
  { intros j. unfold p. rewrite get_append_r. reflexivity. }
  unfold Base. destruct (String.eqb_spec p "") as [Hp0|_].
  { rewrite Hp0 in Hp. simpl in Hp. lia. }
  rewrite trimSlashes_none.
  2:{ intros c. rewrite Hp.
      replace (String.length dir + S (String.length file) - 1)
        with (String.length dir + S (String.length file - 1)) by lia.
      rewrite Hget. intros Hc ->. now apply (Hfile (String.length file - 1)). }
  unfold lastIndexByte.
  rewrite (lastIndexBelow_found _ _ _ (String.length dir)).
  - replace (String.length dir + 1) with (String.length (dir ++ "/"))
      by (rewrite length_append; reflexivity).
    unfold p. 
    replace (dir ++ "/" ++ file) with ((dir ++ "/") ++ file).
    2:{ clear. induction dir as [|a r IH]; [reflexivity|].
        rewrite !append_String. now rewrite IH. }
    rewrite slice_append_r.
    destruct (String.eqb_spec file ""); [contradiction | reflexivity].
  - lia.
  - unfold p. rewrite <- (Nat.add_0_r (String.length dir)) at 1.
    now rewrite get_append_r.
  - intros j Hj. replace j with (String.length dir + S (j - String.length dir - 1)) by lia.
    rewrite Hget. apply Hfile.
Qed.

Lemma Base_plain (file : string) :
  file <> "" -> hasByte "/" file = false -> Base file = file.
Proof.
  intros Hne Hs. pose proof (proj1 (hasByte_false _ _) Hs) as Hfile.
  unfold Base. destruct (String.eqb_spec file "") as [|_]; [contradiction|].
  rewrite trimSlashes_none by (intros c Hc ->; now apply (Hfile _ Hc)).
  unfold lastIndexByte. rewrite lastIndexBelow_absent by (intros j _; apply Hfile).
  destruct (String.eqb_spec file ""); [contradiction | reflexivity].
Qed.

Lemma objectName_ignores_directory (dir file : string) :
  file <> "" -> hasByte "/" file = false ->
  objectName (dir ++ "/" ++ file) = objectName file.
Proof.
  intros Hne Hs. unfold objectName.
  now rewrite Base_strips_directory, Base_plain.
Qed.

Example objectName_report : objectName "out/report.txt" = "report.gzip".
Proof. reflexivity. Qed.

Example objectName_trailing_slash : objectName "a/b.tar.gz/" = "b.tar.gzip".
Proof. reflexivity. Qed.

Example objectName_empty : objectName "" = ".gzip".
Proof. reflexivity. Qed.

(** C2. The object name is the base name of the path without its
    extension, followed by [".gzip"]: the base name splits into a stem and
    its extension, and the object name is that stem with the suffix; the
    directory in front of a file name plays no part; ["data.csv"] gives
    ["data.gzip"] and ["README"] gives ["README.gzip"]. *)
Theorem objectName_stem_gzip (filename : string) :
  (exists stem,
      Base filename = stem ++ Ext (Base filename) /\
      objectName filename = stem ++ ".gzip") /\
  (forall dir file,
      file <> "" -> hasByte "/" file = false ->
      filename = dir ++ "/" ++ file ->
      Base filename = file /\ objectName filename = objectName file) /\
  objectName "data.csv" = "data.gzip" /\
  objectName "README" = "README.gzip".
Proof.
  split; [|split; [|split; reflexivity]].
  - exists (slice (Base filename) 0
              (String.length (Base filename) - String.length (Ext (Base filename)))).
    split; [|reflexivity].
    symmetry. apply Ext_suffix.
  - intros dir file Hne Hs ->. split.
    + now apply Base_strips_directory.
    + now apply objectName_ignores_directory.
Qed.

Lemma objectName_stem_gzip_witness :
  Base "/var/log/data.csv" = "data.csv" /\
  objectName "/var/log/data.csv" = objectName "data.csv".
Proof.
  apply (proj1 (proj2 (objectName_stem_gzip "/var/log/data.csv")) "/var/log" "data.csv");
    [discriminate | reflexivity | reflexivity].
Defined.

(** C10. When the base name of a path starts with a dot and has no other
    dot, the extension is the whole base name, the object name is
    [".gzip"], and two such paths get the same object name. *)
Theorem objectName_dotfile (p q rp rq : string) :
  Base p = String "." rp -> hasByte "." rp = false ->
  Base q = String "." rq -> hasByte "." rq = false ->
  Ext (Base p) = Base p /\
  objectName p = ".gzip" /\
  objectName p = objectName q.
Proof.
  assert (H : forall f r, Base f = String "." r -> hasByte "." r = false ->
                          Ext (Base f) = Base f /\ objectName f = ".gzip").
  { intros f r Hb Hd.
    assert (Hs : hasByte "/" r = false).
    { destruct (Base_no_slash f) as [Hroot|Hno]; rewrite Hb in *.
      - discriminate.
      - simpl in Hno. assumption. }
    assert (He : Ext (Base f) = Base f) by (rewrite Hb; now apply Ext_leading_dot).
    split; [assumption|].
    unfold objectName. rewrite He, Nat.sub_diag. unfold slice. simpl.
    now rewrite substring_nothing. }
  intros Hp Hdp Hq Hdq.
  destruct (H p rp Hp Hdp) as [He Hn]. destruct (H q rq Hq Hdq) as [_ Hn'].
  repeat split; [assumption | assumption | congruence].
Qed.

Lemma objectName_dotfile_witness :
  Ext (Base "/home/u/.gitignore") = Base "/home/u/.gitignore" /\
  objectName "/home/u/.gitignore" = ".gzip" /\
  objectName "/home/u/.gitignore" = objectName ".bashrc".
Proof.
  apply (objectName_dotfile "/home/u/.gitignore" ".bashrc" "gitignore" "bashrc");
    reflexivity.
Defined.

End ObjectName.

(** ** Worlds *)

Lemma made_app (w w' : World) (cs : list Call) :
  calls w' = (calls w ++ cs)%list -> made w w' = cs.
Proof. intros H. unfold made. rewrite H. apply drop_app_length. Qed.

Lemma made_refl (w w' : World) : calls w' = calls w -> made w w' = [].
Proof. intros H. apply made_app. now rewrite app_nil_r. Qed.

(** ** [Connect] *)

Section Connecting.

Variable E : Env.

(** C4. With a blank project identifier or a blank credentials reference,
    [Connect] ends the process with status 1 after writing to standard
    error the message that names a blank variable; no call leaves the
    package, so no storage client is constructed, and no [gcsClient]
    either. *)
Theorem Connect_blank_exits (w : World) :
  getenv w "GOOGLE_CLOUD_PROJECT" = "" \/
  getenv w "GOOGLE_APPLICATION_CREDENTIALS" = "" ->
  exists var,
    (var = "GOOGLE_CLOUD_PROJECT" \/ var = "GOOGLE_APPLICATION_CREDENTIALS") /\
    getenv w var = "" /\
    Connect E w =
      (Exit 1,
       set_stderr (stderr w ++ var ++ " environment variable must be set." ++ newline) w) /\
    made w (snd (Connect E w)) = [] /\
    clients (snd (Connect E w)) = clients w /\
    heap (snd (Connect E w)) = heap w.
Proof.
  intros H.
  destruct (String.eqb_spec (getenv w "GOOGLE_CLOUD_PROJECT") "") as [Hp|Hp].
  - exists "GOOGLE_CLOUD_PROJECT".
    assert (Hrun : Connect E w =
      (Exit 1,
       set_stderr (stderr w ++ "GOOGLE_CLOUD_PROJECT"
                     ++ " environment variable must be set." ++ newline) w)).
    { unfold Connect, bind, os_Getenv. rewrite Hp. reflexivity. }
    rewrite Hrun. simpl. repeat split; auto using made_refl.
  - destruct H as [H|Hc]; [contradiction|].
    exists "GOOGLE_APPLICATION_CREDENTIALS".
    assert (Hrun : Connect E w =
      (Exit 1,
       set_stderr (stderr w ++ "GOOGLE_APPLICATION_CREDENTIALS"
                     ++ " environment variable must be set." ++ newline) w)).
    { unfold Connect, bind, os_Getenv.
      destruct (String.eqb_spec (getenv w "GOOGLE_CLOUD_PROJECT") ""); [contradiction|].
      simpl. rewrite Hc. reflexivity. }
    rewrite Hrun. simpl. repeat split; auto using made_refl.
Qed.

(** C6, as the code has it.  From a state with at most one [gcsClient],
    with both variables set and a storage library that delivers a client,
    [Connect] returns; afterwards exactly one [gcsClient] exists, a call
    after the first one allocates no other and leaves [singleton] as it
    is; but every call constructs a new storage client and stores it,
    with the project identifier, in that [gcsClient]. *)
Theorem Connect_one_handle (w : World) :
  one_handle w ->
  getenv w "GOOGLE_CLOUD_PROJECT" <> "" ->
  getenv w "GOOGLE_APPLICATION_CREDENTIALS" <> "" ->
  newClientErr E (length (calls w)) = None ->
  exists w' g,
    Connect E w = (Ret tt, w') /\
    one_handle w' /\ once w' = true /\ length (heap w') = 1 /\
    (once w = true ->
     singleton w' = singleton w /\ length (heap w') = length (heap w)) /\
    made w w' = [CallNewClient] /\
    clients w' = S (clients w) /\
    handle w' = Some g /\
    client g = Some (clients w) /\
    projectID g = getenv w "GOOGLE_CLOUD_PROJECT".
Proof.
  intros Hinv Hp Hc Hnew.
  unfold Connect, bind, os_Getenv.
  destruct (String.eqb_spec (getenv w "GOOGLE_CLOUD_PROJECT") ""); [contradiction|].
  simpl.
  destruct (String.eqb_spec (getenv w "GOOGLE_APPLICATION_CREDENTIALS") "");
    [contradiction|].
  generalize (getenv w "GOOGLE_CLOUD_PROJECT"). intros proj.
  unfold createClient, once_Do, bind, get_singleton, store, load,
    storage_NewClient, bind, now, call, new_gcsClient, one_handle, handle, made in *.
  destruct w as [hp sg on wrs env fs cl bs os out err cs]; simpl in *.
  destruct on.
  - destruct Hinv as [-> Hlen].
    destruct hp as [|g0 [|? ?]]; try discriminate.
    simpl. rewrite Hnew. simpl.
    eexists _, _. split; [reflexivity|]. simpl.
    rewrite drop_app_length. repeat split; reflexivity.
  - destruct Hinv as [-> ->]. simpl. rewrite Hnew. simpl.
    eexists _, _. split; [reflexivity|]. simpl.
    rewrite drop_app_length. repeat split; try reflexivity. all: discriminate.
Qed.

End Connecting.

Lemma Connect_blank_exits_witness :
  exists var,
    (var = "GOOGLE_CLOUD_PROJECT" \/ var = "GOOGLE_APPLICATION_CREDENTIALS") /\
    getenv (Sim.start ∅ Sim.disk) var = "" /\
    Connect Sim.reliable (Sim.start ∅ Sim.disk) =
      (Exit 1,
       set_stderr (stderr (Sim.start ∅ Sim.disk) ++ var
                     ++ " environment variable must be set." ++ newline)
         (Sim.start ∅ Sim.disk)) /\
    made (Sim.start ∅ Sim.disk) (snd (Connect Sim.reliable (Sim.start ∅ Sim.disk))) = [] /\
    clients (snd (Connect Sim.reliable (Sim.start ∅ Sim.disk))) = 0 /\
    heap (snd (Connect Sim.reliable (Sim.start ∅ Sim.disk))) = [].
Proof.
  apply (Connect_blank_exits Sim.reliable (Sim.start ∅ Sim.disk)).
  left. reflexivity.
Defined.

Lemma Connect_one_handle_witness :
  exists w' g,
    Connect Sim.reliable Sim.connected = (Ret tt, w') /\
    one_handle w' /\ once w' = true /\ length (heap w') = 1 /\
    (once Sim.connected = true ->
     singleton w' = singleton Sim.connected /\
     length (heap w') = length (heap Sim.connected)) /\
    made Sim.connected w' = [CallNewClient] /\
    clients w' = S (clients Sim.connected) /\
    handle w' = Some g /\
    client g = Some (clients Sim.connected) /\
    projectID g = getenv Sim.connected "GOOGLE_CLOUD_PROJECT".
Proof.
  apply (Connect_one_handle Sim.reliable Sim.connected).
  - vm_compute. split; reflexivity.
  - vm_compute. discriminate.
  - vm_compute. discriminate.
  - reflexivity.
Defined.

(** C6, as stated, fails: a second [Connect] constructs a second storage
    client, distinct from the first, and puts it in the place of the first
    one. *)
Lemma Connect_again_second_client :
  fst (Connect Sim.reliable (Sim.start Sim.vars Sim.disk)) = Ret tt /\
  fst (Connect Sim.reliable Sim.connected) = Ret tt /\
  handle Sim.connected = Some Sim.handle0 /\
  made Sim.connected Sim.reconnected = [CallNewClient] /\
  handle Sim.reconnected = Some (with_client (Some 1) Sim.handle0) /\
  clients Sim.connected = 1 /\
  clients Sim.reconnected = 2.
Proof. vm_compute. repeat split; reflexivity. Qed.

(** ** [setBucket] *)

Section Resolving.

Variable E : Env.

(** What [setBucket] does once [Connect] has succeeded. *)
Lemma setBucket_run (w : World) (a : nat) (g : gcsClient) (c : nat) (name : string) :
  singleton w = Some a -> heap w !! a = Some g -> client g = Some c ->
  let bh := {| bh_client := Some c; bh_name := name |} in
  let creating := stdout w ++ "Creating bucket " ++ name ++ newline in
  let w1 := set_calls (calls w ++ [CallAttrs name]) w in
  let w2 := set_calls (calls w ++ [CallAttrs name; CallCreate name (projectID g)])
              (set_stdout creating w) in
  setBucket E name w =
    match service_attrs E (length (calls w)) (buckets w) name with
    | None => (Ret None, set_heap (<[a := with_bucket (Some bh) g]> (heap w)) w1)
    | Some ErrBucketNotExist =>
        match service_create E (S (length (calls w))) (buckets w) name (projectID g) with
        | (Some e, bs) =>
            (Ret (Some e),
             set_stdout (creating ++ ("Error creating bucket " ++ Error e) ++ newline)
               (set_buckets bs w2))
        | (None, bs) =>
            (Ret None,
             set_heap (<[a := with_bucket (Some bh) g]> (heap w)) (set_buckets bs w2))
        end
    | Some e => (Ret (Some e), set_stdout (stdout w ++ Error e ++ newline) w1)
    end.
Proof.
  intros Hs Hh Hc.
  unfold setBucket, bindBucket, Bucket_Attrs, Bucket_Create, Client_Bucket, bind,
    get_singleton, load, store, now, call, print, println, ret.
  destruct w as [hp sg on wrs env fs cl bs os out err cs]; simpl in *. subst sg.
  rewrite Hh, Hc. simpl.
  destruct (service_attrs E (length cs) bs name) as [[|msg]|]; simpl.
  - rewrite Hh. simpl. rewrite length_app, Nat.add_1_r. simpl.
    destruct (service_create E (S (length cs)) bs name (projectID g)) as [[e|] bs'];
      simpl.
    + rewrite <- app_assoc. reflexivity.
    + rewrite Hh. rewrite <- app_assoc. reflexivity.
  - reflexivity.
  - rewrite Hh. reflexivity.
Qed.

(** An error of [setBucket] is the result of [Upload], which does nothing
    more than report it. *)
Lemma Upload_setBucket_error (w w1 : World) (name filename : string) (e : error) :
  setBucket E name w = (Ret (Some e), w1) ->
  Upload E name filename w =
    (Ret (Some e),
     set_stdout (stdout w1 ++ ("GCS: Error setting bucket " ++ Error e) ++ newline) w1).
Proof. intros H. unfold Upload, bind. rewrite H. reflexivity. Qed.

Lemma handle_Some (w : World) (g : gcsClient) :
  handle w = Some g -> exists a, singleton w = Some a /\ heap w !! a = Some g.
Proof. unfold handle. destruct (singleton w) as [a|]; [eauto | discriminate]. Qed.

Lemma handle_bound (hp : list gcsClient) (a : nat) (g g' : gcsClient) :
  hp !! a = Some g -> <[a := g']> hp !! a = Some g'.
Proof.
  intros Hh. apply list_lookup_insert_eq. eapply lookup_lt_Some. eassumption.
Qed.

(** C1, as the code has it.  After [Connect], [setBucket] checks that the
    bucket exists.  When it does, the bucket is bound.  When the check
    reports that it does not, one creation call is made under the
    configured project; the bucket is bound when that call succeeds, and
    when it fails its error is returned and nothing is bound.  Every
    other error of the check is returned as it is, with no creation call
    and nothing bound.  [Upload] returns the error of [setBucket] as it
    is, and makes no further call. *)
Theorem setBucket_resolution (w : World) (g : gcsClient) (c : nat) (name : string) :
  handle w = Some g -> client g = Some c ->
  let bh := {| bh_client := Some c; bh_name := name |} in
  exists r w',
    setBucket E name w = (Ret r, w') /\
    match service_attrs E (length (calls w)) (buckets w) name with
    | None =>
        r = None /\ made w w' = [CallAttrs name] /\
        handle w' = Some (with_bucket (Some bh) g) /\ buckets w' = buckets w
    | Some ErrBucketNotExist =>
        made w w' = [CallAttrs name; CallCreate name (projectID g)] /\
        (r, buckets w') =
          service_create E (S (length (calls w))) (buckets w) name (projectID g) /\
        handle w' = Some (match r with
                          | None => with_bucket (Some bh) g
                          | Some _ => g
                          end)
    | Some e =>
        r = Some e /\ made w w' = [CallAttrs name] /\
        handle w' = Some g /\ buckets w' = buckets w
    end /\
    forall e filename,
      r = Some e ->
      exists w'',
        Upload E name filename w = (Ret (Some e), w'') /\
        made w w'' = made w w' /\ handle w'' = handle w' /\ buckets w'' = buckets w'.
Proof.
  intros Hg Hc bh. apply handle_Some in Hg. destruct Hg as (a & Hs & Hg).
  unfold handle.
  pose proof (setBucket_run w a g c name Hs Hg Hc) as Hrun. simpl in Hrun.
  assert (Hup : forall r w', setBucket E name w = (Ret r, w') ->
            forall e filename, r = Some e ->
            exists w'',
              Upload E name filename w = (Ret (Some e), w'') /\
              made w w'' = made w w' /\
              match singleton w'' with Some a => heap w'' !! a | None => None end =
              match singleton w' with Some a => heap w' !! a | None => None end /\
              buckets w'' = buckets w').
  { intros r w' Hr e filename ->. eexists. split.
    - apply Upload_setBucket_error. eassumption.
    - repeat split. }
  destruct (service_attrs E (length (calls w)) (buckets w) name) as [[|msg]|].
  - destruct (service_create E (S (length (calls w))) (buckets w) name (projectID g))
      as [[e|] bs'] eqn:Hcreate.
    + eexists _, _. split; [exact Hrun|]. split; [|eauto]. simpl.
      rewrite Hs. repeat split; [apply made_app; reflexivity | assumption].
    + eexists _, _. split; [exact Hrun|]. split; [|eauto]. simpl.
      rewrite Hs. repeat split.
      * apply made_app. reflexivity.
      * eapply handle_bound; eassumption.
  - eexists _, _. split; [exact Hrun|]. split; [|eauto]. simpl.
    rewrite Hs. repeat split; [apply made_app; reflexivity | assumption].
  - eexists _, _. split; [exact Hrun|]. split; [|eauto]. simpl.
    rewrite Hs. repeat split.
    + apply made_app. reflexivity.
    + eapply handle_bound; eassumption.
Qed.

(** C5, as the code has it.  For a bucket that does not exist and an
    existence check that is answered, [setBucket] makes exactly one
    creation call.  When that call succeeds, a second [setBucket] with the
    same name, its existence check answered too, makes no creation call:
    it finds the bucket and binds it. *)
Theorem setBucket_idempotent (w : World) (g : gcsClient) (c : nat) (name : string) :
  handle w = Some g -> client g = Some c ->
  name ∉ buckets w ->
  attrsErr E (length (calls w)) name = None ->
  exists r1 w1,
    setBucket E name w = (Ret r1, w1) /\
    creations (made w w1) = 1 /\
    (r1 = None ->
     attrsErr E (length (calls w1)) name = None ->
     exists w2,
       setBucket E name w1 = (Ret None, w2) /\
       made w1 w2 = [CallAttrs name] /\
       creations (made w1 w2) = 0 /\
       buckets w2 = buckets w1 /\
       handle w2 = Some (with_bucket (Some {| bh_client := Some c; bh_name := name |}) g)).
Proof.
  intros Hg Hc Hnew Hattrs. apply handle_Some in Hg. destruct Hg as (a & Hs & Hg).
  unfold handle.
  pose proof (setBucket_run w a g c name Hs Hg Hc) as Hrun. simpl in Hrun.
  unfold service_attrs in Hrun. rewrite Hattrs in Hrun.
  rewrite bool_decide_eq_false_2 in Hrun by assumption.
  unfold service_create in Hrun.
  destruct (createErr E (S (length (calls w))) name (projectID g)) as [e|].
  - eexists _, _. split; [exact Hrun|]. split; [|discriminate].
    erewrite made_app by reflexivity. reflexivity.
  - rewrite bool_decide_eq_false_2 in Hrun by assumption.
    eexists _, _. split; [exact Hrun|]. split.
    + erewrite made_app by reflexivity. reflexivity.
    + intros _ Hattrs2.
      set (g1 := with_bucket (Some {| bh_client := Some c; bh_name := name |}) g).
      match type of Hrun with _ = (_, ?x) => set (w1 := x) in * end.
      assert (Hh1 : heap w1 !! a = Some g1) by (eapply handle_bound; eassumption).
      pose proof (setBucket_run w1 a g1 c name Hs Hh1 Hc) as Hrun2. cbv zeta in Hrun2.
      unfold service_attrs in Hrun2. rewrite Hattrs2 in Hrun2.
      rewrite bool_decide_eq_true_2 in Hrun2 by (simpl; set_solver).
      eexists. split; [exact Hrun2|]. simpl.
      erewrite made_app by reflexivity. repeat split.
      rewrite Hs. apply list_lookup_insert_eq.
      rewrite length_insert. eapply lookup_lt_Some. eassumption.
Qed.

End Resolving.

Lemma setBucket_resolution_witness :
  handle Sim.connected = Some Sim.handle0 /\
  client Sim.handle0 = Some 0 /\
  exists r w', setBucket Sim.reliable "my-bucket" Sim.connected = (Ret r, w').
Proof.
  split; [reflexivity|]. split; [reflexivity|].
  destruct (setBucket_resolution Sim.reliable Sim.connected Sim.handle0 0 "my-bucket"
              eq_refl eq_refl) as (r & w' & Hrun & _).
  exists r, w'. exact Hrun.
Defined.

(** C1, as stated, fails: the bucket does not exist, the existence check
    says so, and the creation call is refused; [setBucket] returns the
    error of the creation call, the bucket is not created and the
    [gcsClient] has no bucket bound. *)
Lemma setBucket_creation_refused :
  bool_decide ("my-bucket" ∈ buckets Sim.connected) = false /\
  service_attrs Sim.denied (length (calls Sim.connected)) (buckets Sim.connected)
    "my-bucket" = Some ErrBucketNotExist /\
  fst (setBucket Sim.denied "my-bucket" Sim.connected) = Ret (Some Sim.forbidden) /\
  made Sim.connected Sim.refused = [CallAttrs "my-bucket"; CallCreate "my-bucket" "proj"] /\
  bool_decide ("my-bucket" ∈ buckets Sim.refused) = false /\
  handle Sim.refused = Some Sim.handle0 /\
  bucket Sim.handle0 = None.
Proof. vm_compute. repeat split; reflexivity. Qed.

Lemma setBucket_idempotent_witness :
  handle Sim.connected = Some Sim.handle0 /\
  client Sim.handle0 = Some 0 /\
  ("my-bucket" ∉ buckets Sim.connected) /\
  exists r1 w1,
    setBucket Sim.reliable "my-bucket" Sim.connected = (Ret r1, w1) /\
    creations (made Sim.connected w1) = 1.
Proof.
  assert (Hnew : "my-bucket" ∉ buckets Sim.connected)
    by (apply (bool_decide_eq_false_1 _); reflexivity).
  split; [reflexivity|]. split; [reflexivity|]. split; [exact Hnew|].
  destruct (setBucket_idempotent Sim.reliable Sim.connected Sim.handle0 0 "my-bucket"
              eq_refl eq_refl Hnew eq_refl) as (r1 & w1 & Hrun & Hone & _).
  exists r1, w1. split; assumption.
Defined.

(** C5, as stated, fails: when the creation call of the first [setBucket]
    is refused, the second [setBucket] with the same name attempts the
    creation again. *)
Lemma setBucket_creation_retried :
  bool_decide ("my-bucket" ∈ buckets Sim.connected) = false /\
  creations (made Sim.connected Sim.refused) = 1 /\
  made Sim.refused Sim.refused_again =
    [CallAttrs "my-bucket"; CallCreate "my-bucket" "proj"] /\
  creations (made Sim.refused Sim.refused_again) = 1.
Proof. vm_compute. repeat split; reflexivity. Qed.

(** ** [Upload] *)

Section Uploading.
Variable E : Env.

Lemma lookup_snoc {A} (l : list A) (x : A) : (l ++ [x])%list !! length l = Some x.
Proof. apply list_lookup_middle. reflexivity. Qed.

Lemma insert_snoc {A} (l : list A) (x y : A) :
  <[length l := y]> (l ++ [x])%list = (l ++ [y])%list.
Proof.
  rewrite insert_app_r_alt by lia. rewrite Nat.sub_diag. reflexivity.
Qed.

(** Runs the assignments through the writer allocated last and brings the
    number of calls made so far into the form [length cs + k]. *)
Ltac run_writers :=
  repeat first
    [ rewrite lookup_snoc
    | rewrite insert_snoc
    | rewrite length_app
    | rewrite <- Nat.add_assoc
    | progress simpl ].

Lemma Upload_run (w w1 : World) (name filename : string)
      (a : nat) (g : gcsClient) (bh : BucketHandle) :
  setBucket E name w = (Ret None, w1) ->
  singleton w1 = Some a -> heap w1 !! a = Some g -> bucket g = Some bh ->
  exists r w',
    Upload E name filename w = (Ret r, w') /\
    buckets w' = buckets w1 /\ heap w' = heap w1 /\
    once w' = once w1 /\ singleton w' = singleton w1 /\
    let t := length (calls w1) in
    let obj := objectName filename in
    match read_file (files w1) filename with
    | (_, Some e) =>
        r = Some e /\ calls w' = (calls w1 ++ [CallReadFile filename])%list /\
        objects w' = objects w1 /\ writers w' = writers w1
    | (data, None) =>
        match gzWriteErr E (t + 2) with
        | Some e =>
            r = Some e /\
            calls w' = (calls w1 ++ [CallReadFile filename; CallNewWriter (bh_name bh) obj;
                          CallGzipWrite (tagged bh obj []) (length data)])%list /\
            objects w' = objects w1 /\
            writers w' =
              (writers w1 ++
               [retain e (tagged bh obj (firstn (delivered E (t + 2)) (gz_write E data)))])%list
        | None =>
            let wr := flushed E (t + 3) bh obj data in
            r = close_result E (t + 4) wr /\
            calls w' = (calls w1 ++ [CallReadFile filename; CallNewWriter (bh_name bh) obj;
                          CallGzipWrite (tagged bh obj []) (length data);
                          CallGzipClose (tagged bh obj (gz_write E data));
                          CallWriterClose wr])%list /\
            writers w' = (writers w1 ++ [wr])%list /\
            objects w' =
              match close_result E (t + 4) wr with
              | Some _ =>
                  if leftBehind E (t + 4)
                  then <[(bh_name bh, obj) := object_of wr]> (objects w1)
                  else objects w1
              | None => <[(bh_name bh, obj) := object_of wr]> (objects w1)
              end
        end
    end.
Proof.
  intros Hset Hs Hh Hb.
  unfold Upload, bind at 1. rewrite Hset.
  unfold ioutil_ReadFile, Object_NewWriter, gzip_Write, gzip_Close, Writer_Close,
    Writer_Write, gzip_NewWriter, bind, get_singleton, load, loadW, storeW, now,
    call, print, println, ret, bucket_of, flushed, close_result.
  destruct w1 as [hp sg on wrs env fs cl bs os out err cs]; simpl in *. subst sg.
  destruct (read_file fs filename) as [data [e|]]; simpl.
  - eexists _, _. split; [reflexivity|]. simpl. repeat split.
  - rewrite Hh, Hb. run_writers.
    destruct (gzWriteErr E (length cs + 2)) as [e|]; run_writers.
    + eexists _, _. split; [reflexivity|]. simpl.
      rewrite <- !app_assoc. simpl. repeat split.
    + destruct (gzCloseErr E (length cs + 3)) as [e|]; run_writers.
      * destruct (leftBehind E (length cs + 4));
          (eexists _, _; split; [reflexivity|]; simpl;
           rewrite <- !app_assoc; simpl; repeat split).
      * destruct (closeErr E (length cs + 4)) as [e'|]; run_writers;
          [destruct (leftBehind E (length cs + 4))|];
          (eexists _, _; split; [reflexivity|]; simpl;
           rewrite <- !app_assoc; simpl; repeat split).
Qed.

(** [setBucket] in any world: it touches no writer, no object and no
    file, and a bucket is bound when it returns without an error. *)
Lemma setBucket_frame (w : World) (name : string) :
  exists r w1 cs,
    setBucket E name w = (r, w1) /\
    calls w1 = (calls w ++ cs)%list /\
    Forall (fun c => uses_writer c = false) cs /\
    writers w1 = writers w /\ objects w1 = objects w /\ files w1 = files w /\
    (r = Ret None ->
     exists a g c,
       singleton w1 = Some a /\ heap w1 !! a = Some g /\
       bucket g = Some {| bh_client := Some c; bh_name := name |}) /\
    once w1 = once w /\ singleton w1 = singleton w /\
    length (heap w1) = length (heap w).
Proof.
  destruct (singleton w) as [a|] eqn:Hs.
  2:{ exists Panic, w, []. unfold setBucket, bind, get_singleton, load.
      rewrite Hs, app_nil_r. repeat split; [constructor | discriminate]. }
  destruct (heap w !! a) as [g|] eqn:Hh.
  2:{ exists Panic, w, []. unfold setBucket, bind, get_singleton, load.
      rewrite Hs, Hh, app_nil_r. repeat split; [constructor | discriminate]. }
  destruct (client g) as [c|] eqn:Hc.
  2:{ exists Panic, w, [].
      unfold setBucket, bind, get_singleton, load, Bucket_Attrs, Client_Bucket.
      rewrite Hs, Hh. simpl. rewrite Hc, app_nil_r.
      repeat split; [constructor | discriminate]. }
  pose proof (setBucket_run E w a g c name Hs Hh Hc) as Hrun. cbv zeta in Hrun.
  assert (Hb : <[a := with_bucket (Some {| bh_client := Some c; bh_name := name |}) g]>
                 (heap w) !! a =
               Some (with_bucket (Some {| bh_client := Some c; bh_name := name |}) g))
    by (eapply handle_bound; eassumption).
  destruct (service_attrs E (length (calls w)) (buckets w) name) as [[|msg]|].
  - destruct (service_create E (S (length (calls w))) (buckets w) name (projectID g))
      as [[e|] bs'].
    + eexists _, _, [_; _]. split; [exact Hrun|]. simpl.
      repeat split; try exact Hs; [repeat constructor | discriminate].
    + eexists _, _, [_; _]. split; [exact Hrun|]. simpl.
      repeat split; try exact Hs; [repeat constructor | | apply length_insert].
      intros _. eexists a, _, c. split; [exact Hs|]. split; [exact Hb | reflexivity].
  - eexists _, _, [_]. split; [exact Hrun|]. simpl.
    repeat split; try exact Hs; [repeat constructor | discriminate].
  - eexists _, _, [_]. split; [exact Hrun|]. simpl.
    repeat split; try exact Hs; [repeat constructor | | apply length_insert].
    intros _. eexists a, _, c. split; [exact Hs|]. split; [exact Hb | reflexivity].
Qed.

(** [Upload] stops where [setBucket] ends the process or panics. *)
Lemma Upload_setBucket_stops (w w1 : World) (name filename : string)
      (r : Outcome (option error)) :
  setBucket E name w = (r, w1) -> (forall v, r <> Ret v) ->
  Upload E name filename w = (r, w1).
Proof.
  intros H Hr. unfold Upload, bind. rewrite H.
  destruct r as [v| |]; [now destruct (Hr v) | reflexivity | reflexivity].
Qed.

Ltac check_tags :=
  repeat constructor; simpl in *; try discriminate;
  repeat match goal with
         | H : Some _ = Some _ |- _ => injection H as <-
         end;
  try reflexivity.

Lemma flushed_tagged (t : nat) (bh : BucketHandle) (obj : string) (data : bytes) :
  well_tagged (flushed E t bh obj data).
Proof. unfold flushed. destruct (gzCloseErr E t); split; reflexivity. Qed.

Lemma unreadable_read_file (fs : gmap string File) (filename : string) :
  unreadable fs filename ->
  exists data e, read_file fs filename = (data, Some e).
Proof.
  unfold read_file. intros [H|[[data H]|H]]; rewrite H; eauto.
Qed.

Lemma call_writer_uses (c : Call) (wr : Writer) :
  call_writer c = Some wr -> uses_writer c = true.
Proof. destruct c; simpl; congruence. Qed.

(** The calls, writers and objects of one [Upload], in any world: the
    calls of [setBucket], which use no writer, then the calls of the
    transfer, whose writers carry the two labels. *)
Lemma Upload_summary (w : World) (name filename : string) :
  exists r r1 w1 w' cs us ws,
    setBucket E name w = (r1, w1) /\
    Upload E name filename w = (r, w') /\
    calls w1 = (calls w ++ cs)%list /\
    calls w' = (calls w1 ++ us)%list /\
    Forall (fun c => uses_writer c = false) cs /\
    Forall (fun c => forall wr, call_writer c = Some wr -> well_tagged wr) us /\
    writers w' = (writers w ++ ws)%list /\
    Forall well_tagged ws /\
    (objects w' = objects w \/
     exists k o, objects w' = <[k := o]> (objects w) /\
                 o_contentType o = "text/plain" /\ o_contentEncoding o = "gzip").
Proof.
  destruct (setBucket_frame w name)
    as (r1 & w1 & cs & Hset & Hcalls & Hcs & Hwr & Hobj & _ & Hbound & _).
  destruct r1 as [[e|]| |].
  - exists (Ret (Some e)), (Ret (Some e)), w1. eexists _, cs, [], [].
    split; [exact Hset|]. split; [apply Upload_setBucket_error; exact Hset|]. simpl.
    rewrite !app_nil_r. repeat split; auto.
  - destruct (Hbound eq_refl) as (a & g & c & Hs & Hh & Hb).
    destruct (Upload_run w w1 name filename a g _ Hset Hs Hh Hb)
      as (r & w' & Hup & _ & _ & _ & _ & Hcase). cbv zeta in Hcase.
    exists (Ret r), (Ret None), w1, w', cs.
    destruct (read_file (files w1) filename) as [data [e|]].
    + destruct Hcase as (_ & Hc' & Ho & Hw).
      exists [CallReadFile filename], [].
      rewrite app_nil_r. repeat split; auto; try congruence.
      * repeat constructor; simpl; discriminate.
      * left. congruence.
    + destruct (gzWriteErr E (length (calls w1) + 2)) as [e|].
      * destruct Hcase as (_ & Hc' & Ho & Hw). eexists _, [_].
        rewrite Hw, Hwr. repeat split; [exact Hset | exact Hup | exact Hcalls
          | exact Hc' | exact Hcs | | | left; congruence].
        -- check_tags.
        -- repeat constructor.
      * destruct Hcase as (_ & Hc' & Hw & Ho).
        match type of Hw with _ = (_ ++ [?x])%list => set (wr := x) in * end.
        assert (Ht : well_tagged wr) by apply flushed_tagged.
        eexists _, [wr].
        rewrite Hw, Hwr. split; [exact Hset|]. split; [exact Hup|].
        split; [exact Hcalls|]. split; [exact Hc'|]. split; [exact Hcs|].
        split; [|split; [reflexivity|split]].
        -- repeat (constructor;
                   [intros wr' Hc; simpl in Hc;
                    first [discriminate
                          |injection Hc as <-; first [exact Ht | split; reflexivity]]|]).
           constructor.
        -- constructor; [exact Ht | constructor].
        -- rewrite Ho, Hobj. destruct Ht as [Ht1 Ht2].
           destruct (close_result E (length (calls w1) + 4) wr);
             [destruct (leftBehind E (length (calls w1) + 4)); [|now left]|];
             right; eexists _, _; (split; [reflexivity|]); simpl; split; assumption.
  - exists (Exit code), (Exit code), w1, w1, cs, [], [].
    split; [exact Hset|].
    split; [apply Upload_setBucket_stops; [assumption | discriminate]|].
    rewrite !app_nil_r. repeat split; auto.
  - exists Panic, Panic, w1, w1, cs, [], [].
    split; [exact Hset|].
    split; [apply Upload_setBucket_stops; [assumption | discriminate]|].
    rewrite !app_nil_r. repeat split; auto.
Qed.

(** C7. Whatever the world and the file, every call of [Upload] that
    works on a storage writer finds the writer with content type
    ["text/plain"] and content encoding ["gzip"]; so does every writer the
    call has allocated, and every object it has put into the service. *)
Theorem Upload_writer_tags (w : World) (name filename : string) :
  (forall c wr,
      c ∈ made w (snd (Upload E name filename w)) ->
      call_writer c = Some wr ->
      ContentType wr = "text/plain" /\ ContentEncoding wr = "gzip") /\
  (forall i wr,
      length (writers w) <= i ->
      writers (snd (Upload E name filename w)) !! i = Some wr ->
      ContentType wr = "text/plain" /\ ContentEncoding wr = "gzip") /\
  (forall k o,
      objects (snd (Upload E name filename w)) !! k = Some o ->
      objects w !! k = Some o \/
      (o_contentType o = "text/plain" /\ o_contentEncoding o = "gzip")).
Proof.
  destruct (Upload_summary w name filename)
    as (r & r1 & w1 & w' & cs & us & ws & _ & Hup & Hcs & Hus & Fcs & Fus
        & Hws & Fws & Hobj).
  rewrite Hup. simpl. split; [|split].
  - intros c wr Hin Hc.
    rewrite (made_app w w' (cs ++ us)) in Hin
      by (rewrite Hus, Hcs, app_assoc; reflexivity).
    apply elem_of_app in Hin. destruct Hin as [Hin|Hin].
    + rewrite Forall_forall in Fcs. apply Fcs in Hin.
      apply call_writer_uses in Hc. congruence.
    + rewrite Forall_forall in Fus. exact (Fus c Hin wr Hc).
  - intros i wr Hi Hl. rewrite Hws in Hl.
    rewrite lookup_app_r in Hl by assumption.
    rewrite Forall_lookup in Fws. exact (Fws _ _ Hl).
  - intros k o Hl. destruct Hobj as [Ho|(k' & o' & Ho & Ht)].
    + left. congruence.
    + rewrite Ho in Hl. destruct (decide (k' = k)) as [->|Hne].
      * rewrite lookup_insert_eq in Hl. injection Hl as <-. now right.
      * rewrite lookup_insert_ne in Hl by assumption. now left.
Qed.

(** C8. When the file is missing, not readable or a directory, [Upload]
    makes no call that opens or uses a writer, allocates no writer and
    puts no object into the service; the buckets and the [gcsClient] are
    as [setBucket] left them; and once [setBucket] has returned without an
    error, the only further call is the read and [Upload] returns the
    error of the read. *)
Theorem Upload_unreadable (w : World) (name filename : string) :
  unreadable (files w) filename ->
  exists r w' r1 w1,
    setBucket E name w = (r1, w1) /\
    Upload E name filename w = (r, w') /\
    Forall (fun c => uses_writer c = false) (made w w') /\
    writers w' = writers w /\ objects w' = objects w /\
    buckets w' = buckets w1 /\ heap w' = heap w1 /\
    (r1 = Ret None ->
     made w1 w' = [CallReadFile filename] /\
     exists e, snd (read_file (files w) filename) = Some e /\ r = Ret (Some e)).
Proof.
  intros Hbad.
  destruct (setBucket_frame w name)
    as (r1 & w1 & cs & Hset & Hcalls & Hcs & Hwr & Hobj & Hfiles & Hbound & _).
  destruct r1 as [[e|]| |].
  - eexists _, _, _, w1. split; [exact Hset|].
    split; [apply Upload_setBucket_error; exact Hset|]. simpl.
    rewrite (made_app _ _ cs) by exact Hcalls. repeat split; auto; congruence.
  - destruct (Hbound eq_refl) as (a & g & c & Hs & Hh & Hb).
    destruct (Upload_run w w1 name filename a g _ Hset Hs Hh Hb)
      as (r & w' & Hup & Hbs & Hhp & _ & _ & Hcase). cbv zeta in Hcase.
    destruct (unreadable_read_file _ _ Hbad) as (data & e & Hread).
    rewrite Hfiles, Hread in Hcase. destruct Hcase as (-> & Hc' & Ho & Hw).
    exists (Ret (Some e)), w', (Ret None), w1.
    split; [exact Hset|]. split; [exact Hup|].
    rewrite (made_app w w' (cs ++ [CallReadFile filename]))
      by (rewrite Hc', Hcalls, app_assoc; reflexivity).
    repeat split; try congruence.
    + apply Forall_app. split; [assumption | repeat constructor].
    + apply made_app. assumption.
    + exists e. rewrite Hread. split; reflexivity.
  - eexists _, _, _, w1. split; [exact Hset|].
    split; [apply Upload_setBucket_stops; [exact Hset | discriminate]|].
    rewrite (made_app _ _ cs) by exact Hcalls. repeat split; auto; congruence.
  - eexists _, _, _, w1. split; [exact Hset|].
    split; [apply Upload_setBucket_stops; [exact Hset | discriminate]|].
    rewrite (made_app _ _ cs) by exact Hcalls. repeat split; auto; congruence.
Qed.

(** An [Upload] that returns no error has stored the whole compressed
    file: a failed write or flush would have come back from the close of
    the writer. *)
Lemma Upload_nil_stored (w w' : World) (name filename : string) (data : bytes) :
  read_file (files w) filename = (data, None) ->
  Upload E name filename w = (Ret None, w') ->
  objects w' !! (name, objectName filename) = Some (stored E data).
Proof.
  intros Hread Hup.
  destruct (setBucket_frame w name)
    as (r1 & w1 & cs & Hset & Hcalls & Hcs & Hwr & Hobj & Hfiles & Hbound & _).
  destruct r1 as [[e|]| |].
  - rewrite (Upload_setBucket_error _ _ _ _ _ _ Hset) in Hup. discriminate.
  - destruct (Hbound eq_refl) as (a & g & c & Hs & Hh & Hb).
    destruct (Upload_run w w1 name filename a g _ Hset Hs Hh Hb)
      as (r & w2 & Hup2 & _ & _ & _ & _ & Hcase). cbv zeta in Hcase.
    rewrite Hup in Hup2. injection Hup2 as <- <-.
    rewrite Hfiles, Hread in Hcase.
    destruct (gzWriteErr E (length (calls w1) + 2)) as [e|].
    + destruct Hcase as (Hr & _). discriminate.
    + destruct Hcase as (Hr & _ & _ & Ho). rewrite <- Hr in Ho. rewrite Ho.
      unfold flushed, close_result in *.
      destruct (gzCloseErr E (length (calls w1) + 3)); [discriminate|].
      simpl. apply lookup_insert_eq.
  - rewrite (Upload_setBucket_stops _ _ _ _ _ Hset) in Hup by discriminate.
    discriminate.
  - rewrite (Upload_setBucket_stops _ _ _ _ _ Hset) in Hup by discriminate.
    discriminate.
Qed.

(** X13. What [Upload] guarantees about the bytes it stores: when it
    returns without an error and the close of the encoder has not failed,
    the object named after the file, in the bucket of this call, holds the
    compressed file with the two labels, and it decompresses to the
    file. *)
Lemma Upload_round_trip (w w' w1 : World) (name filename : string) (data : bytes) :
  gzip_inverse E ->
  w1 = snd (setBucket E name w) ->
  read_file (files w) filename = (data, None) ->
  gzCloseErr E (length (calls w1) + 3) = None ->
  Upload E name filename w = (Ret None, w') ->
  objects w' !! (name, objectName filename) =
    Some {| o_contentType := "text/plain"; o_contentEncoding := "gzip";
            o_data := gzip E data |} /\
  gunzip E (gzip E data) = Some data.
Proof.
  intros Hinv _ Hread _ Hup. split; [|apply Hinv].
  exact (Upload_nil_stored w w' name filename data Hread Hup).
Qed.

(** C9. For any file content, when [Upload] returns no error the object
    named after the file, in the bucket of the call, holds the gzip
    compression of the whole file, and decompressing it gives the file
    back, for any codec that is an inverse pair. *)
Theorem Upload_nil_round_trip (w w' : World) (name filename : string) (data : bytes) :
  gzip_inverse E ->
  read_file (files w) filename = (data, None) ->
  Upload E name filename w = (Ret None, w') ->
  exists o,
    objects w' !! (name, objectName filename) = Some o /\
    o_data o = gzip E data /\
    gunzip E (o_data o) = Some data.
Proof.
  intros Hinv Hread Hup. exists (stored E data).
  split; [exact (Upload_nil_stored w w' name filename data Hread Hup)|].
  split; [reflexivity | apply Hinv].
Qed.

(** [Upload] allocates no [gcsClient] and leaves [singleton] and [once]
    alone. *)
Lemma Upload_handle_frame (w : World) (name filename : string) :
  once (snd (Upload E name filename w)) = once w /\
  singleton (snd (Upload E name filename w)) = singleton w /\
  length (heap (snd (Upload E name filename w))) = length (heap w).
Proof.
  destruct (setBucket_frame w name)
    as (r1 & w1 & cs & Hset & _ & _ & _ & _ & _ & Hbound & Ho & Hs & Hl).
  destruct r1 as [[e|]| |].
  - rewrite (Upload_setBucket_error E _ _ _ filename _ Hset). simpl. auto.
  - destruct (Hbound eq_refl) as (a & g & c & Hs1 & Hh & Hb).
    destruct (Upload_run w w1 name filename a g _ Hset Hs1 Hh Hb)
      as (r & w' & Hup & _ & Hhp & Ho' & Hs' & _).
    rewrite Hup. simpl. rewrite Ho', Hs', Hhp. auto.
  - rewrite (Upload_setBucket_stops _ _ _ filename _ Hset) by discriminate. auto.
  - rewrite (Upload_setBucket_stops _ _ _ filename _ Hset) by discriminate. auto.
Qed.

Lemma one_handle_frame (w w' : World) :
  once w' = once w -> singleton w' = singleton w ->
  length (heap w') = length (heap w) ->
  one_handle w -> one_handle w'.
Proof.
  unfold one_handle. intros -> -> Hl. destruct (once w); intros [Hs Hh].
  - split; congruence.
  - split; [assumption|]. rewrite Hh in Hl. now apply nil_length_inv.
Qed.

(** At most one [gcsClient] exists before [Upload] and after it. *)
Lemma Upload_keeps_one_handle (w : World) (name filename : string) :
  one_handle w -> one_handle (snd (Upload E name filename w)).
Proof.
  destruct (Upload_handle_frame w name filename) as (Ho & Hs & Hl).
  now apply one_handle_frame.
Qed.

(** At most one [gcsClient] exists before [Connect] and after it, however
    [Connect] ends. *)
Lemma Connect_keeps_one_handle (w : World) :
  one_handle w -> one_handle (snd (Connect E w)).
Proof.
  intros Hinv. unfold Connect, bind, os_Getenv.
  destruct (String.eqb (getenv w "GOOGLE_CLOUD_PROJECT") ""); [exact Hinv|].
  simpl.
  destruct (String.eqb (getenv w "GOOGLE_APPLICATION_CREDENTIALS") ""); [exact Hinv|].
  generalize (getenv w "GOOGLE_CLOUD_PROJECT"). intros proj.
  unfold createClient, once_Do, bind, get_singleton, store, load,
    storage_NewClient, bind, now, call, new_gcsClient, one_handle in *.
  destruct w as [hp sg on wrs env fs cl bs os out err cs]; simpl in *.
  destruct on.
  - destruct Hinv as [-> Hlen].
    destruct hp as [|g0 [|? ?]]; try discriminate. simpl.
    destruct (newClientErr E (length cs)); simpl; split; reflexivity.
  - destruct Hinv as [-> ->]. simpl.
    destruct (newClientErr E (length cs)); simpl; split; reflexivity.
Qed.

End Uploading.

Lemma Upload_writer_tags_witness :
  ContentType (tagged Sim.my_bucket "notes.gzip" (gzip Sim.reliable Sim.notes)) = "text/plain" /\
  ContentEncoding (tagged Sim.my_bucket "notes.gzip" (gzip Sim.reliable Sim.notes)) = "gzip".
Proof.
  apply (proj1 (Upload_writer_tags Sim.reliable Sim.connected "my-bucket" "notes.txt")
           (CallWriterClose (tagged Sim.my_bucket "notes.gzip" (gzip Sim.reliable Sim.notes)))).
  - vm_compute. repeat constructor.
  - reflexivity.
Defined.

Lemma Upload_unreadable_witness :
  unreadable (files Sim.connected) "nope.txt" /\
  exists r w' r1 w1,
    setBucket Sim.reliable "my-bucket" Sim.connected = (r1, w1) /\
    Upload Sim.reliable "my-bucket" "nope.txt" Sim.connected = (r, w') /\
    writers w' = writers Sim.connected /\ objects w' = objects Sim.connected.
Proof.
  assert (H : unreadable (files Sim.connected) "nope.txt") by (left; reflexivity).
  split; [exact H|].
  destruct (Upload_unreadable Sim.reliable Sim.connected "my-bucket" "nope.txt" H)
    as (r & w' & r1 & w1 & Hset & Hup & _ & Hw & Ho & _).
  exists r, w', r1, w1. repeat split; assumption.
Defined.

(** ** The two closes of [Upload] *)

Lemma unframe_frame (data : bytes) :
  Sim.unframe (Sim.frame_write data ++ Sim.frame_close data)%list = Some data.
Proof.
  unfold Sim.frame_write, Sim.frame_close, Sim.header, Sim.trailer. simpl.
  rewrite rev_app_distr. simpl. now rewrite rev_involutive.
Qed.

(** C3. Once the write to the encoder has succeeded, [Upload] closes the
    encoder and then the writer, in that order, and a failure of either
    close is what [Upload] returns: the close of the encoder fails only
    when its flush to the writer fails, the writer keeps that error and
    returns it from its own close, and the result of that close is
    checked. *)
Theorem Upload_close_errors_returned (E : Env) (w w1 : World)
        (name filename : string) (data : bytes) :
  setBucket E name w = (Ret None, w1) ->
  read_file (files w) filename = (data, None) ->
  gzWriteErr E (length (calls w1) + 2) = None ->
  exists r w' bh wr,
    bh_name bh = name /\
    Upload E name filename w = (Ret r, w') /\
    made w1 w' =
      [CallReadFile filename; CallNewWriter name (objectName filename);
       CallGzipWrite (tagged bh (objectName filename) []) (length data);
       CallGzipClose (tagged bh (objectName filename) (gz_write E data));
       CallWriterClose wr] /\
    w_err wr = gzCloseErr E (length (calls w1) + 3) /\
    r = match gzCloseErr E (length (calls w1) + 3) with
        | Some e => Some e
        | None => closeErr E (length (calls w1) + 4)
        end.
Proof.
  intros Hset Hread Hwrite.
  destruct (setBucket_frame E w name)
    as (r1 & w2 & cs & Hset' & _ & _ & _ & _ & Hfiles & Hbound & _).
  rewrite Hset in Hset'. injection Hset' as <- <-.
  destruct (Hbound eq_refl) as (a & g & c & Hs & Hh & Hb).
  destruct (Upload_run E w w1 name filename a g _ Hset Hs Hh Hb)
    as (r & w' & Hup & _ & _ & _ & _ & Hcase). cbv zeta in Hcase.
  rewrite Hfiles, Hread, Hwrite in Hcase.
  destruct Hcase as (Hr & Hcalls & _).
  exists r, w', {| bh_client := Some c; bh_name := name |}. eexists.
  split; [reflexivity|]. split; [exact Hup|].
  split; [apply made_app; exact Hcalls|].
  rewrite Hr. unfold close_result, flushed.
  destruct (gzCloseErr E (length (calls w1) + 3)); split; reflexivity.
Qed.

Lemma Upload_close_errors_returned_witness :
  gzCloseErr Sim.lossy 6 = Some Sim.broken /\
  exists w',
    Upload Sim.lossy "my-bucket" "notes.txt" Sim.connected =
      (Ret (Some Sim.broken), w').
Proof.
  split; [reflexivity|].
  destruct (Upload_close_errors_returned Sim.lossy Sim.connected Sim.resolved
              "my-bucket" "notes.txt" Sim.notes)
    as (r & w' & bh & wr & _ & Hup & _ & _ & Hr).
  - vm_compute. reflexivity.
  - reflexivity.
  - reflexivity.
  - exists w'. rewrite Hup, Hr. reflexivity.
Defined.

Lemma Upload_nil_round_trip_witness :
  exists o,
    objects Sim.uploaded !! ("my-bucket", objectName "notes.txt") = Some o /\
    o_data o = gzip Sim.reliable Sim.notes /\
    gunzip Sim.reliable (o_data o) = Some Sim.notes.
Proof.
  apply (Upload_nil_round_trip Sim.reliable Sim.connected Sim.uploaded
           "my-bucket" "notes.txt" Sim.notes).
  - exact unframe_frame.
  - reflexivity.
  - vm_compute. reflexivity.
Defined.

(** A process starts without any [gcsClient]. *)
Lemma start_one_handle (vars : gmap string string) (fs : gmap string File) :
  one_handle (Sim.start vars fs).
Proof. split; reflexivity. Qed.

(** * Further properties of the package *)

(** ** Object names of dotted and plain file names *)

Section MoreObjectNames.

Import path.

Lemma hasByte_append (c : ascii) (s t : string) :
  hasByte c (s ++ t) = hasByte c s || hasByte c t.
Proof.
  induction s as [|a r IH]; [reflexivity|].
  rewrite append_String. simpl. now rewrite IH, orb_assoc.
Qed.

Lemma get_append_l (s t : string) (i : nat) :
  i < String.length s -> String.get i (s ++ t) = String.get i s.
Proof. intros H. symmetry. now apply append_correct1. Qed.

Lemma slice_append_l (s t : string) :
  slice (s ++ t) 0 (String.length s) = s.
Proof.
  unfold slice. rewrite Nat.sub_0_r.
  induction s as [|a r IH]; [apply substring_nothing|].
  rewrite append_String. simpl. now rewrite IH.
Qed.

(** Without a dot there is no extension. *)
Lemma extBelow_no_dot (n : nat) (p : string) :
  hasByte "." p = false -> extBelow n p = "".
Proof.
  intros Hd. pose proof (proj1 (hasByte_false _ _) Hd) as Hall.
  induction n as [|n IH]; [reflexivity|]. simpl.
  destruct (String.get n p) as [c|] eqn:Hc; [|reflexivity].
  destruct (Ascii.eqb c "/"); [reflexivity|].
  destruct (Ascii.eqb_spec c ".") as [->|_]; [now destruct (Hall n)|].
  exact IH.
Qed.

(** The extension starts at the last dot. *)
Lemma Ext_last_dot (n e : string) :
  hasByte "." e = false -> hasByte "/" e = false ->
  Ext (n ++ String "." e) = String "." e.
Proof.
  intros Hd Hs.
  pose proof (proj1 (hasByte_false _ _) Hd) as Hdot.
  pose proof (proj1 (hasByte_false _ _) Hs) as Hslash.
  set (p := n ++ String "." e).
  assert (Hlen : String.length p = String.length n + S (String.length e))
    by (unfold p; rewrite length_append; reflexivity).
  assert (Hk : forall k, k <= String.length e ->
            extBelow (String.length n + S k) p = slice p (String.length n) (String.length p)).
  { induction k as [|k IH]; intros Hle.
    - rewrite Nat.add_1_r. simpl.
      replace (String.get (String.length n) p) with (Some "."%char).
      + reflexivity.
      + unfold p. rewrite <- (Nat.add_0_r (String.length n)) at 1.
        now rewrite get_append_r.
    - rewrite Nat.add_succ_r. simpl.
      replace (String.get (String.length n + S k) p) with (String.get k e)
        by (unfold p; now rewrite get_append_r).
      destruct (get_lt e k) as [c Hc]; [lia|]. rewrite Hc.
      destruct (Ascii.eqb_spec c "/") as [->|_]; [now destruct (Hslash k)|].
      destruct (Ascii.eqb_spec c ".") as [->|_]; [now destruct (Hdot k)|].
      apply IH. lia. }
  unfold Ext. rewrite Hlen. rewrite (Hk (String.length e)) by lia.
  apply slice_append_r.
Qed.

(** X1. Only the last extension is removed: for a file name [n.e] whose
    part [e] after the last dot has neither dot nor slash, alone or behind
    a directory, the object name is [n.gzip]; dots inside [n] stay. *)
Theorem objectName_last_extension (dir n e : string) :
  hasByte "/" n = false -> hasByte "." e = false -> hasByte "/" e = false ->
  objectName (n ++ String "." e) = n ++ ".gzip" /\
  objectName (dir ++ "/" ++ n ++ String "." e) = n ++ ".gzip".
Proof.
  intros Hn Hd Hs.
  assert (Hne : n ++ String "." e <> "") by (destruct n; discriminate).
  assert (Hfile : hasByte "/" (n ++ String "." e) = false).
  { rewrite hasByte_append, Hn. simpl. exact Hs. }
  assert (Hplain : objectName (n ++ String "." e) = n ++ ".gzip").
  { unfold objectName. rewrite Base_plain by assumption.
    rewrite Ext_last_dot by assumption.
    rewrite length_append.
    replace (String.length n + String.length (String "." e)
             - String.length (String "." e)) with (String.length n) by lia.
    now rewrite slice_append_l. }
  split; [exact Hplain|].
  now rewrite objectName_ignores_directory.
Qed.

Lemma objectName_last_extension_witness :
  objectName "b.tar.gz" = "b.tar.gzip" /\
  objectName "/srv/out/b.tar.gz" = "b.tar.gzip".
Proof.
  apply (objectName_last_extension "/srv/out" "b.tar" "gz"); reflexivity.
Defined.

(** X2. A file name without a dot has no extension to lose: alone or
    behind a directory, its object name is the whole name followed by
    [".gzip"]. *)
Theorem objectName_no_extension (dir file : string) :
  file <> "" -> hasByte "/" file = false -> hasByte "." file = false ->
  objectName file = file ++ ".gzip" /\
  objectName (dir ++ "/" ++ file) = file ++ ".gzip".
Proof.
  intros Hne Hs Hd.
  assert (Hplain : objectName file = file ++ ".gzip").
  { unfold objectName. rewrite Base_plain by assumption.
    unfold Ext. rewrite extBelow_no_dot by assumption. simpl.
    now rewrite Nat.sub_0_r, slice_whole. }
  split; [exact Hplain|].
  now rewrite objectName_ignores_directory.
Qed.

Lemma objectName_no_extension_witness :
  objectName "Makefile" = "Makefile.gzip" /\
  objectName "src/gcs/Makefile" = "Makefile.gzip".
Proof.
  apply (objectName_no_extension "src/gcs" "Makefile");
    [discriminate | reflexivity | reflexivity].
Defined.

(** X3. An object name never has a slash, so no object lands in a
    folder of the bucket; the one exception is a path made of slashes
    only, whose object name is ["/.gzip"]. *)
Theorem objectName_no_slash (filename : string) :
  objectName filename = "/.gzip" \/ hasByte "/" (objectName filename) = false.
Proof.
  destruct (Base_no_slash filename) as [Hroot|Hno].
  - left. unfold objectName. rewrite Hroot. reflexivity.
  - right. unfold objectName.
    rewrite <- (Ext_suffix (Base filename)) in Hno.
    rewrite hasByte_append in Hno. apply orb_false_iff in Hno.
    destruct Hno as [Hstem _].
    rewrite hasByte_append, Hstem. reflexivity.
Qed.

End MoreObjectNames.

(** ** [createClient] and the ways [Connect] ends *)

Section MoreConnecting.

Variable E : Env.

(** X4. [createClient] is idempotent: it returns a pointer, after it
    [once] is set and [singleton] is that pointer, a second call returns
    the same pointer and changes nothing, and a call that finds [once] set
    changes nothing at all. *)
Theorem createClient_idempotent (w : World) :
  exists p w1,
    createClient w = (Ret p, w1) /\
    once w1 = true /\ singleton w1 = p /\
    createClient w1 = (Ret p, w1) /\
    (once w = true -> w1 = w) /\
    (once w = false ->
     p = Some (length (heap w)) /\
     heap w1 = (heap w ++ [{| projectID := ""; bucketName := ""; bucket := None;
                              client := None; ctx := Background |}])%list).
Proof.
  unfold createClient, once_Do, bind, get_singleton, new_gcsClient.
  destruct w as [hp sg on wrs env fs cl bs os out err cs]; simpl.
  destruct on; simpl.
  - eexists _, _. split; [reflexivity|]. simpl.
    repeat split; try reflexivity; congruence.
  - eexists _, _. split; [reflexivity|]. simpl.
    repeat split; try reflexivity; congruence.
Qed.

(** X5. From a state with at most one [gcsClient], [Connect] never
    panics and never exits with another status than 1: it returns exactly
    when both variables are set and the storage client is constructed, and
    exits with status 1 otherwise. *)
Theorem Connect_outcomes (w : World) :
  one_handle w ->
  exists w',
    (Connect E w = (Ret tt, w') /\
     getenv w "GOOGLE_CLOUD_PROJECT" <> "" /\
     getenv w "GOOGLE_APPLICATION_CREDENTIALS" <> "" /\
     newClientErr E (length (calls w)) = None) \/
    (Connect E w = (Exit 1, w') /\
     (getenv w "GOOGLE_CLOUD_PROJECT" = "" \/
      getenv w "GOOGLE_APPLICATION_CREDENTIALS" = "" \/
      newClientErr E (length (calls w)) <> None)).
Proof.
  intros Hinv. unfold Connect, bind, os_Getenv.
  destruct (String.eqb_spec (getenv w "GOOGLE_CLOUD_PROJECT") "") as [Hp|Hp].
  { eexists. right. split; [reflexivity | now left]. }
  simpl.
  destruct (String.eqb_spec (getenv w "GOOGLE_APPLICATION_CREDENTIALS") "") as [Hc|Hc].
  { eexists. right. split; [reflexivity | right; now left]. }
  revert Hp. generalize (getenv w "GOOGLE_CLOUD_PROJECT"). intros proj Hp.
  revert Hc. generalize (getenv w "GOOGLE_APPLICATION_CREDENTIALS"). intros cred Hc.
  unfold createClient, once_Do, bind, get_singleton, store, load,
    storage_NewClient, bind, now, call, new_gcsClient, one_handle in *.
  destruct w as [hp sg on wrs env fs cl bs os out err cs]; simpl in *.
  destruct on.
  - destruct Hinv as [-> Hlen].
    destruct hp as [|g0 [|? ?]]; try discriminate. simpl.
    destruct (newClientErr E (length cs)) as [e|]; simpl; eexists.
    + right. split; [reflexivity|]. right. right. discriminate.
    + left. repeat split; assumption.
  - destruct Hinv as [-> ->]. simpl.
    destruct (newClientErr E (length cs)) as [e|]; simpl; eexists.
    + right. split; [reflexivity|]. right. right. discriminate.
    + left. repeat split; assumption.
Qed.

(** X6. When both variables are set and [storage.NewClient] fails,
    [Connect] exits with status 1 after writing the error to standard
    error; by then the one [gcsClient] exists and holds the project
    identifier, its client is the one it had before (none on a first
    call), and no storage client was added. *)
Theorem Connect_client_failure (w : World) (e : error) :
  one_handle w ->
  getenv w "GOOGLE_CLOUD_PROJECT" <> "" ->
  getenv w "GOOGLE_APPLICATION_CREDENTIALS" <> "" ->
  newClientErr E (length (calls w)) = Some e ->
  exists w' g,
    Connect E w = (Exit 1, w') /\
    stderr w' = stderr w ++ ("Unable to create GCS Client: " ++ Error e) ++ newline /\
    stdout w' = stdout w /\
    made w w' = [CallNewClient] /\
    clients w' = clients w /\
    one_handle w' /\ once w' = true /\
    handle w' = Some g /\
    projectID g = getenv w "GOOGLE_CLOUD_PROJECT" /\
    client g = match handle w with
               | Some g0 => client g0
               | None => None
               end.
Proof.
  intros Hinv Hp Hc Hnew.
  unfold Connect, bind, os_Getenv.
  destruct (String.eqb_spec (getenv w "GOOGLE_CLOUD_PROJECT") ""); [contradiction|].
  simpl.
  destruct (String.eqb_spec (getenv w "GOOGLE_APPLICATION_CREDENTIALS") "");
    [contradiction|].
  generalize (getenv w "GOOGLE_CLOUD_PROJECT"). intros proj.
  unfold createClient, once_Do, bind, get_singleton, store, load,
    storage_NewClient, bind, now, call, new_gcsClient, one_handle, handle, made,
    eprintln in *.
  destruct w as [hp sg on wrs env fs cl bs os out err cs]; simpl in *.
  destruct on.
  - destruct Hinv as [-> Hlen].
    destruct hp as [|g0 [|? ?]]; try discriminate.
    simpl. rewrite Hnew. simpl.
    eexists _, _. split; [reflexivity|]. simpl.
    rewrite drop_app_length. repeat split; reflexivity.
  - destruct Hinv as [-> ->]. simpl. rewrite Hnew. simpl.
    eexists _, _. split; [reflexivity|]. simpl.
    rewrite drop_app_length. repeat split; reflexivity.
Qed.

(** X7. Before any [Connect], [singleton] is nil and both [setBucket]
    and [Upload] panic at once: no call leaves the package, nothing is
    printed, the world is as it was. *)
Theorem Upload_before_Connect_panics (w : World) (name filename : string) :
  singleton w = None ->
  setBucket E name w = (Panic, w) /\ Upload E name filename w = (Panic, w).
Proof.
  intros Hs.
  assert (H : setBucket E name w = (Panic, w)).
  { unfold setBucket, bind, get_singleton, load. now rewrite Hs. }
  split; [exact H|]. unfold Upload, bind. now rewrite H.
Qed.

End MoreConnecting.

Lemma Connect_outcomes_witness :
  exists w',
    (Connect Sim.reliable (Sim.start Sim.vars Sim.disk) = (Ret tt, w') /\
     getenv (Sim.start Sim.vars Sim.disk) "GOOGLE_CLOUD_PROJECT" <> "" /\
     getenv (Sim.start Sim.vars Sim.disk) "GOOGLE_APPLICATION_CREDENTIALS" <> "" /\
     newClientErr Sim.reliable (length (calls (Sim.start Sim.vars Sim.disk))) = None) \/
    (Connect Sim.reliable (Sim.start Sim.vars Sim.disk) = (Exit 1, w') /\
     (getenv (Sim.start Sim.vars Sim.disk) "GOOGLE_CLOUD_PROJECT" = "" \/
      getenv (Sim.start Sim.vars Sim.disk) "GOOGLE_APPLICATION_CREDENTIALS" = "" \/
      newClientErr Sim.reliable (length (calls (Sim.start Sim.vars Sim.disk))) <> None)).
Proof.
  apply (Connect_outcomes Sim.reliable (Sim.start Sim.vars Sim.disk)).
  split; reflexivity.
Defined.

Lemma Connect_client_failure_witness :
  exists w',
    Connect Sim.clientless (Sim.start Sim.vars Sim.disk) = (Exit 1, w') /\
    made (Sim.start Sim.vars Sim.disk) w' = [CallNewClient].
Proof.
  destruct (Connect_client_failure Sim.clientless (Sim.start Sim.vars Sim.disk)
              Sim.no_credentials) as (w' & g & Hrun & _ & _ & Hmade & _).
  - split; reflexivity.
  - vm_compute. discriminate.
  - vm_compute. discriminate.
  - reflexivity.
  - exists w'. split; assumption.
Defined.

Lemma Upload_before_Connect_panics_witness :
  setBucket Sim.reliable "my-bucket" (Sim.start Sim.vars Sim.disk) =
    (Panic, Sim.start Sim.vars Sim.disk) /\
  Upload Sim.reliable "my-bucket" "notes.txt" (Sim.start Sim.vars Sim.disk) =
    (Panic, Sim.start Sim.vars Sim.disk).
Proof.
  apply (Upload_before_Connect_panics Sim.reliable (Sim.start Sim.vars Sim.disk)).
  reflexivity.
Defined.

(** ** How [Upload] ends *)

Section MoreUploading.

Variable E : Env.

Lemma leaves_bind {A B} (m : M A) (k : A -> M B) :
  leaves_alone m -> (forall a, leaves_alone (k a)) -> leaves_alone (bind m k).
Proof.
  intros Hm Hk w. unfold bind. specialize (Hm w).
  destruct (m w) as [[a| |] w1]; simpl in *; [|exact Hm|exact Hm].
  destruct (Hk a w1) as (H1 & H2 & H3 & H4).
  destruct Hm as (G1 & G2 & G3 & G4). repeat split; congruence.
Qed.

(** A step that is no [bind]: it is run on a world and its cases are
    told apart. *)
Ltac leaves_step :=
  let w := fresh "w" in
  intros w;
  unfold get_singleton, load, store, loadW, storeW, now, call, print, println,
    ret, panic;
  simpl; repeat case_match; simpl; repeat split.

Ltac leaves :=
  repeat first
    [ apply leaves_bind; [|intros ?]
    | match goal with
      | |- leaves_alone (match ?x with _ => _ end) => destruct x
      end
    | solve [leaves_step] ].

(** [Upload] writes nothing to standard error, constructs no storage
    client and leaves the environment and the files alone. *)
Lemma Upload_leaves (w : World) (name filename : string) :
  stderr (snd (Upload E name filename w)) = stderr w /\
  environ (snd (Upload E name filename w)) = environ w /\
  files (snd (Upload E name filename w)) = files w /\
  clients (snd (Upload E name filename w)) = clients w.
Proof.
  revert w. change (leaves_alone (Upload E name filename)).
  unfold Upload, setBucket, bindBucket, Bucket_Attrs, Bucket_Create, Client_Bucket,
    ioutil_ReadFile, Object_NewWriter, gzip_Write, gzip_Close, Writer_Close,
    gzip_NewWriter, bucket_of.
  cbv zeta. leaves.
Qed.

(** After [Connect], [setBucket] returns. *)
Lemma setBucket_returns (w : World) (g : gcsClient) (c : nat) (name : string) :
  handle w = Some g -> client g = Some c ->
  exists r w1, setBucket E name w = (Ret r, w1).
Proof.
  intros Hg Hc. apply handle_Some in Hg. destruct Hg as (a & Hs & Hg).
  pose proof (setBucket_run E w a g c name Hs Hg Hc) as Hrun. cbv zeta in Hrun.
  destruct (service_attrs E (length (calls w)) (buckets w) name) as [[|msg]|];
    [destruct (service_create E (S (length (calls w))) (buckets w) name (projectID g))
       as [[e|] bs']| |]; eauto.
Qed.

(** A [Connect] that returns leaves a [gcsClient] with a storage client
    and the project identifier of the environment; the service is as it
    was. *)
Lemma Connect_Ret_connected (w w1 : World) :
  one_handle w -> Connect E w = (Ret tt, w1) ->
  exists g c,
    handle w1 = Some g /\ client g = Some c /\
    projectID g = getenv w "GOOGLE_CLOUD_PROJECT" /\
    buckets w1 = buckets w /\ calls w1 = (calls w ++ [CallNewClient])%list.
Proof.
  intros Hinv. unfold Connect, bind, os_Getenv.
  destruct (String.eqb (getenv w "GOOGLE_CLOUD_PROJECT") ""); [discriminate|].
  simpl.
  destruct (String.eqb (getenv w "GOOGLE_APPLICATION_CREDENTIALS") "");
    [discriminate|].
  generalize (getenv w "GOOGLE_CLOUD_PROJECT"). intros proj.
  unfold createClient, once_Do, bind, get_singleton, store, load,
    storage_NewClient, bind, now, call, new_gcsClient, one_handle, handle in *.
  destruct w as [hp sg on wrs env fs cl bs os out err cs]; simpl in *.
  destruct on.
  - destruct Hinv as [-> Hlen].
    destruct hp as [|g0 [|? ?]]; try discriminate. simpl.
    destruct (newClientErr E (length cs)); simpl; [discriminate|].
    intros [= <-]. simpl. eexists _, _. repeat split.
  - destruct Hinv as [-> ->]. simpl.
    destruct (newClientErr E (length cs)); simpl; [discriminate|].
    intros [= <-]. simpl. eexists _, _. repeat split.
Qed.

(** X8. After a [Connect] that returned, [Upload] always returns, with
    an error or without: it neither panics nor ends the process, it
    writes nothing to standard error, constructs no storage client,
    leaves the files alone, and there is still one [gcsClient]. *)
Theorem Upload_after_Connect (w w1 : World) (name filename : string) :
  one_handle w -> Connect E w = (Ret tt, w1) ->
  exists r w',
    Upload E name filename w1 = (Ret r, w') /\
    stderr w' = stderr w1 /\ clients w' = clients w1 /\ files w' = files w1 /\
    one_handle w'.
Proof.
  intros Hinv Hcon.
  destruct (Connect_Ret_connected w w1 Hinv Hcon) as (g & c & Hg & Hc & _).
  assert (Hinv1 : one_handle w1).
  { replace w1 with (snd (Connect E w)) by (now rewrite Hcon).
    now apply Connect_keeps_one_handle. }
  assert (Hret : exists r w', Upload E name filename w1 = (Ret r, w')).
  { destruct (setBucket_returns w1 g c name Hg Hc) as ([e|] & w2 & Hset).
    - eexists _, _. apply Upload_setBucket_error. exact Hset.
    - destruct (setBucket_frame E w1 name)
        as (r1 & w2' & cs & Hset' & _ & _ & _ & _ & _ & Hbound & _).
      rewrite Hset in Hset'. injection Hset' as <- <-.
      destruct (Hbound eq_refl) as (a & g2 & c2 & Hs & Hh & Hb).
      destruct (Upload_run E w1 w2 name filename a g2 _ Hset Hs Hh Hb)
        as (r & w' & Hup & _). eauto. }
  destruct Hret as (r & w' & Hup). exists r, w'. split; [exact Hup|].
  destruct (Upload_leaves w1 name filename) as (He & _ & Hf & Hcl).
  pose proof (Upload_keeps_one_handle E w1 name filename Hinv1) as Hone.
  rewrite Hup in He, Hf, Hcl, Hone. simpl in *. auto.
Qed.

(** X9. With a storage service, a writer and an encoder that do not
    fail, a readable file and a connected package, [Upload] returns no
    error;
    afterwards the bucket exists, created by exactly one call when it did
    not exist and by none when it did, it is the bucket bound in the
    [gcsClient], and the object named after the file exists in it with
    the two labels. *)
Theorem Upload_succeeds (w : World) (g : gcsClient) (c : nat)
        (name filename : string) (data : bytes) :
  reliable_storage E -> reliable_encoder E ->
  handle w = Some g -> client g = Some c ->
  read_file (files w) filename = (data, None) ->
  exists w' o,
    Upload E name filename w = (Ret None, w') /\
    name ∈ buckets w' /\
    creations (made w w') = (if bool_decide (name ∈ buckets w) then 0 else 1) /\
    handle w' = Some (with_bucket (Some {| bh_client := Some c; bh_name := name |}) g) /\
    objects w' !! (name, objectName filename) = Some o /\
    o_contentType o = "text/plain" /\ o_contentEncoding o = "gzip".
Proof.
  intros (Hattrs & Hcreate & Hwrite & Hclose) Henc Hg Hc Hread.
  apply handle_Some in Hg. destruct Hg as (a & Hs & Hg).
  pose proof (setBucket_run E w a g c name Hs Hg Hc) as Hrun. cbv zeta in Hrun.
  unfold service_attrs, service_create in Hrun. rewrite Hattrs, Hcreate in Hrun.
  set (bh := {| bh_client := Some c; bh_name := name |}) in *.
  assert (Hb : <[a := with_bucket (Some bh) g]> (heap w) !! a =
               Some (with_bucket (Some bh) g))
    by (eapply handle_bound; eassumption).
  destruct (decide (name ∈ buckets w)) as [Hin|Hin];
    [rewrite bool_decide_eq_true_2 in * by assumption
    |rewrite !bool_decide_eq_false_2 in * by assumption].
  - match type of Hrun with _ = (_, ?x) => set (w1 := x) in * end.
    destruct (Upload_run E w w1 name filename a _ bh Hrun Hs Hb eq_refl)
      as (r & w' & Hup & Hbs & Hhp & _ & Hs' & Hcase). cbv zeta in Hcase.
    change (files w1) with (files w) in Hcase.
    rewrite Hread, Hwrite in Hcase. unfold flushed, close_result in Hcase.
    rewrite Henc in Hcase. cbn [w_err tagged] in Hcase. rewrite Hclose in Hcase.
    destruct Hcase as (-> & Hcalls & _ & Hobj).
    eexists w', _. split; [exact Hup|].
    rewrite Hbs, Hobj. unfold handle. rewrite Hs', Hhp. simpl. rewrite Hs.
    split; [exact Hin|]. split.
    { erewrite made_app
        by (rewrite Hcalls; simpl; rewrite <- app_assoc; reflexivity).
      reflexivity. }
    split; [exact Hb|]. split; [apply lookup_insert_eq|]. split; reflexivity.
  - match type of Hrun with _ = (_, ?x) => set (w1 := x) in * end.
    destruct (Upload_run E w w1 name filename a _ bh Hrun Hs Hb eq_refl)
      as (r & w' & Hup & Hbs & Hhp & _ & Hs' & Hcase). cbv zeta in Hcase.
    change (files w1) with (files w) in Hcase.
    rewrite Hread, Hwrite in Hcase. unfold flushed, close_result in Hcase.
    rewrite Henc in Hcase. cbn [w_err tagged] in Hcase. rewrite Hclose in Hcase.
    destruct Hcase as (-> & Hcalls & _ & Hobj).
    eexists w', _. split; [exact Hup|].
    rewrite Hbs, Hobj. unfold handle. rewrite Hs', Hhp. simpl. rewrite Hs.
    split; [simpl; apply elem_of_union; left; now apply elem_of_singleton|]. split.
    { erewrite made_app
        by (rewrite Hcalls; simpl; rewrite <- app_assoc; reflexivity).
      reflexivity. }
    split; [exact Hb|]. split; [apply lookup_insert_eq|]. split; reflexivity.
Qed.

(** X10. When the write to the encoder fails, [Upload] returns that
    error after the read, the new writer and the write: neither the
    encoder nor the writer is closed, and no object is put into the
    service. *)
Theorem Upload_write_failure (w w1 : World) (name filename : string)
        (data : bytes) (e : error) :
  setBucket E name w = (Ret None, w1) ->
  read_file (files w) filename = (data, None) ->
  gzWriteErr E (length (calls w1) + 2) = Some e ->
  exists w' bh,
    bh_name bh = name /\
    Upload E name filename w = (Ret (Some e), w') /\
    made w1 w' =
      [CallReadFile filename; CallNewWriter name (objectName filename);
       CallGzipWrite (tagged bh (objectName filename) []) (length data)] /\
    objects w' = objects w /\ buckets w' = buckets w1.
Proof.
  intros Hset Hread Hwrite.
  destruct (setBucket_frame E w name)
    as (r1 & w2 & cs & Hset' & _ & _ & _ & Hobj & Hfiles & Hbound & _).
  rewrite Hset in Hset'. injection Hset' as <- <-.
  destruct (Hbound eq_refl) as (a & g & c & Hs & Hh & Hb).
  destruct (Upload_run E w w1 name filename a g _ Hset Hs Hh Hb)
    as (r & w' & Hup & Hbs & _ & _ & _ & Hcase). cbv zeta in Hcase.
  rewrite Hfiles, Hread, Hwrite in Hcase.
  destruct Hcase as (-> & Hcalls & Ho & _).
  exists w', {| bh_client := Some c; bh_name := name |}.
  split; [reflexivity|]. split; [exact Hup|].
  split; [now apply made_app|]. split; congruence.
Qed.

(** X11. When the write succeeds and the close of the writer fails,
    [Upload] returns an error: the one the writer kept from the flush of
    the encoder when that failed, the one of the close otherwise; the
    encoder was closed before the writer. *)
Theorem Upload_close_failure (w w1 : World) (name filename : string)
        (data : bytes) (e : error) :
  setBucket E name w = (Ret None, w1) ->
  read_file (files w) filename = (data, None) ->
  gzWriteErr E (length (calls w1) + 2) = None ->
  closeErr E (length (calls w1) + 4) = Some e ->
  exists w' bh e',
    bh_name bh = name /\
    Upload E name filename w = (Ret (Some e'), w') /\
    e' = match gzCloseErr E (length (calls w1) + 3) with
         | Some e0 => e0
         | None => e
         end /\
    made w1 w' =
      [CallReadFile filename; CallNewWriter name (objectName filename);
       CallGzipWrite (tagged bh (objectName filename) []) (length data);
       CallGzipClose (tagged bh (objectName filename) (gz_write E data));
       CallWriterClose
         (flushed E (length (calls w1) + 3) bh (objectName filename) data)] /\
    buckets w' = buckets w1.
Proof.
  intros Hset Hread Hwrite Hclose.
  destruct (setBucket_frame E w name)
    as (r1 & w2 & cs & Hset' & _ & _ & _ & Hobj & Hfiles & Hbound & _).
  rewrite Hset in Hset'. injection Hset' as <- <-.
  destruct (Hbound eq_refl) as (a & g & c & Hs & Hh & Hb).
  destruct (Upload_run E w w1 name filename a g _ Hset Hs Hh Hb)
    as (r & w' & Hup & Hbs & _ & _ & _ & Hcase). cbv zeta in Hcase.
  rewrite Hfiles, Hread, Hwrite in Hcase.
  destruct Hcase as (Hr & Hcalls & _ & _).
  exists w', {| bh_client := Some c; bh_name := name |}.
  exists (match gzCloseErr E (length (calls w1) + 3) with
          | Some e0 => e0
          | None => e
          end).
  split; [reflexivity|]. split.
  - rewrite Hup, Hr. unfold close_result, flushed.
    destruct (gzCloseErr E (length (calls w1) + 3)); simpl.
    + reflexivity.
    + now rewrite Hclose.
  - split; [reflexivity|]. split; [apply made_app; exact Hcalls|exact Hbs].
Qed.

(** X12. [Upload] is not all or nothing: with a bucket that does not
    exist, a service that answers and a file that cannot be read,
    [Upload] returns the error of the read, and by then the bucket has
    been created and bound; no object is stored. *)
Theorem Upload_unreadable_creates_bucket (w : World) (g : gcsClient) (c : nat)
        (name filename : string) :
  handle w = Some g -> client g = Some c ->
  name ∉ buckets w ->
  attrsErr E (length (calls w)) name = None ->
  createErr E (S (length (calls w))) name (projectID g) = None ->
  unreadable (files w) filename ->
  exists e w',
    Upload E name filename w = (Ret (Some e), w') /\
    snd (read_file (files w) filename) = Some e /\
    made w w' = [CallAttrs name; CallCreate name (projectID g); CallReadFile filename] /\
    buckets w' = {[name]} ∪ buckets w /\
    handle w' = Some (with_bucket (Some {| bh_client := Some c; bh_name := name |}) g) /\
    objects w' = objects w.
Proof.
  intros Hg Hc Hnew Hattrs Hcreate Hbad.
  apply handle_Some in Hg. destruct Hg as (a & Hs & Hg).
  pose proof (setBucket_run E w a g c name Hs Hg Hc) as Hrun. cbv zeta in Hrun.
  unfold service_attrs, service_create in Hrun. rewrite Hattrs, Hcreate in Hrun.
  rewrite !bool_decide_eq_false_2 in Hrun by assumption.
  set (bh := {| bh_client := Some c; bh_name := name |}) in *.
  assert (Hb : <[a := with_bucket (Some bh) g]> (heap w) !! a =
               Some (with_bucket (Some bh) g))
    by (eapply handle_bound; eassumption).
  match type of Hrun with _ = (_, ?x) => set (w1 := x) in * end.
  destruct (Upload_run E w w1 name filename a _ bh Hrun Hs Hb eq_refl)
    as (r & w' & Hup & Hbs & Hhp & _ & Hs' & Hcase). cbv zeta in Hcase.
  change (files w1) with (files w) in Hcase.
  destruct (unreadable_read_file _ _ Hbad) as (data & e & Hread).
  rewrite Hread in Hcase. destruct Hcase as (-> & Hcalls & Ho & _).
  exists e, w'. split; [exact Hup|]. split; [now rewrite Hread|].
  split.
  { erewrite made_app
      by (rewrite Hcalls; simpl; rewrite <- app_assoc; reflexivity).
    reflexivity. }
  split; [rewrite Hbs; reflexivity|].
  split; [unfold handle; rewrite Hs', Hhp; simpl; rewrite Hs; exact Hb|].
  rewrite Ho. reflexivity.
Qed.

(** The service and the package after an [Upload] in which nothing
    fails. *)
Lemma Upload_reliable_run (w : World) (g : gcsClient) (c : nat)
      (name filename : string) (data : bytes) :
  reliable_storage E -> reliable_encoder E ->
  handle w = Some g -> client g = Some c ->
  read_file (files w) filename = (data, None) ->
  exists w',
    Upload E name filename w = (Ret None, w') /\
    buckets w' = {[name]} ∪ buckets w /\
    objects w' = <[(name, objectName filename) := stored E data]> (objects w) /\
    handle w' = Some (with_bucket (Some {| bh_client := Some c; bh_name := name |}) g) /\
    creations (made w w') = (if bool_decide (name ∈ buckets w) then 0 else 1).
Proof.
  intros (Hattrs & Hcreate & Hwrite & Hclose) Henc Hg Hc Hread.
  apply handle_Some in Hg. destruct Hg as (a & Hs & Hg).
  pose proof (setBucket_run E w a g c name Hs Hg Hc) as Hrun. cbv zeta in Hrun.
  unfold service_attrs, service_create in Hrun. rewrite Hattrs, Hcreate in Hrun.
  set (bh := {| bh_client := Some c; bh_name := name |}) in *.
  assert (Hb : <[a := with_bucket (Some bh) g]> (heap w) !! a =
               Some (with_bucket (Some bh) g))
    by (eapply handle_bound; eassumption).
  destruct (decide (name ∈ buckets w)) as [Hin|Hin];
    [rewrite bool_decide_eq_true_2 in * by assumption
    |rewrite !bool_decide_eq_false_2 in * by assumption];
    match type of Hrun with _ = (_, ?x) => set (w1 := x) in * end;
    destruct (Upload_run E w w1 name filename a _ bh Hrun Hs Hb eq_refl)
      as (r & w' & Hup & Hbs & Hhp & _ & Hs' & Hcase); cbv zeta in Hcase;
    change (files w1) with (files w) in Hcase;
    rewrite Hread, Hwrite in Hcase; unfold flushed, close_result in Hcase;
    rewrite Henc in Hcase; cbn [w_err tagged] in Hcase; rewrite Hclose in Hcase;
    destruct Hcase as (-> & Hcalls & _ & Hobj);
    exists w'; (split; [exact Hup|]);
    rewrite Hbs, Hobj; unfold handle; rewrite Hs', Hhp; simpl; rewrite Hs.
  - split; [symmetry; now apply subseteq_union_1_L, singleton_subseteq_l|].
    split; [reflexivity|]. split; [exact Hb|].
    erewrite made_app
      by (rewrite Hcalls; simpl; rewrite <- app_assoc; reflexivity).
    reflexivity.
  - split; [reflexivity|]. split; [reflexivity|]. split; [exact Hb|].
    erewrite made_app
      by (rewrite Hcalls; simpl; rewrite <- app_assoc; reflexivity).
    reflexivity.
Qed.

(** X14. Uploading the same file to the same bucket a second time, with
    nothing failing, makes no creation call and leaves the buckets and the
    objects of the service exactly as the first upload left them. *)
Theorem Upload_again_same_service (w : World) (g : gcsClient) (c : nat)
        (name filename : string) (data : bytes) :
  reliable_storage E -> reliable_encoder E ->
  handle w = Some g -> client g = Some c ->
  read_file (files w) filename = (data, None) ->
  exists w1 w2,
    Upload E name filename w = (Ret None, w1) /\
    Upload E name filename w1 = (Ret None, w2) /\
    creations (made w1 w2) = 0 /\
    buckets w2 = buckets w1 /\ objects w2 = objects w1 /\
    handle w2 = handle w1.
Proof.
  intros Hst Henc Hg Hc Hread.
  destruct (Upload_reliable_run w g c name filename data Hst Henc Hg Hc Hread)
    as (w1 & Hup1 & Hbs1 & Hos1 & Hh1 & _).
  assert (Hfiles : files w1 = files w).
  { destruct (Upload_leaves w name filename) as (_ & _ & Hf & _).
    now rewrite Hup1 in Hf. }
  assert (Hread1 : read_file (files w1) filename = (data, None))
    by now rewrite Hfiles.
  destruct (Upload_reliable_run w1 _ c name filename data Hst Henc Hh1 Hc Hread1)
    as (w2 & Hup2 & Hbs2 & Hos2 & Hh2 & Hcr).
  exists w1, w2. split; [exact Hup1|]. split; [exact Hup2|].
  split.
  { rewrite Hcr, bool_decide_eq_true_2; [reflexivity|]. rewrite Hbs1.
    apply elem_of_union. left. now apply elem_of_singleton. }
  split; [rewrite Hbs2, Hbs1; apply subseteq_union_1_L, union_subseteq_l|].
  split; [rewrite Hos2, Hos1; apply insert_insert_eq|].
  rewrite Hh2, Hh1. reflexivity.
Qed.

(** X15. Two files uploaded to the same bucket, with nothing failing:
    afterwards the object of the second file holds the second file, and
    the object of the first file still holds the first file exactly when
    the two object names differ; with equal object names the first upload
    is replaced. *)
Theorem Upload_two_files (w : World) (g : gcsClient) (c : nat)
        (name f1 f2 : string) (d1 d2 : bytes) :
  reliable_storage E -> reliable_encoder E ->
  handle w = Some g -> client g = Some c ->
  read_file (files w) f1 = (d1, None) ->
  read_file (files w) f2 = (d2, None) ->
  exists w1 w2,
    Upload E name f1 w = (Ret None, w1) /\
    Upload E name f2 w1 = (Ret None, w2) /\
    objects w2 !! (name, objectName f2) = Some (stored E d2) /\
    objects w2 !! (name, objectName f1) =
      Some (if String.eqb (objectName f1) (objectName f2)
            then stored E d2 else stored E d1).
Proof.
  intros Hst Henc Hg Hc Hr1 Hr2.
  destruct (Upload_reliable_run w g c name f1 d1 Hst Henc Hg Hc Hr1)
    as (w1 & Hup1 & _ & Hos1 & Hh1 & _).
  assert (Hfiles : files w1 = files w).
  { destruct (Upload_leaves w name f1) as (_ & _ & Hf & _).
    now rewrite Hup1 in Hf. }
  assert (Hr2' : read_file (files w1) f2 = (d2, None)) by now rewrite Hfiles.
  destruct (Upload_reliable_run w1 _ c name f2 d2 Hst Henc Hh1 Hc Hr2')
    as (w2 & Hup2 & _ & Hos2 & _).
  exists w1, w2. split; [exact Hup1|]. split; [exact Hup2|].
  rewrite Hos2, Hos1. split; [apply lookup_insert_eq|].
  destruct (String.eqb_spec (objectName f1) (objectName f2)) as [Heq|Hne].
  - rewrite Heq. apply lookup_insert_eq.
  - rewrite lookup_insert_ne by congruence. apply lookup_insert_eq.
Qed.

(** X16. A bucket that [setBucket] has to create is created under the
    project that [GOOGLE_CLOUD_PROJECT] named at the latest [Connect]:
    after a [Connect] that returned, for a bucket that does not exist and
    an existence check that is answered, the calls of [setBucket] are the
    check and one creation call with that project. *)
Theorem setBucket_uses_connected_project (w w1 : World) (name : string) :
  one_handle w -> Connect E w = (Ret tt, w1) ->
  name ∉ buckets w ->
  attrsErr E (S (length (calls w))) name = None ->
  exists r w2,
    setBucket E name w1 = (Ret r, w2) /\
    made w1 w2 =
      [CallAttrs name; CallCreate name (getenv w "GOOGLE_CLOUD_PROJECT")].
Proof.
  intros Hinv Hcon Hnew Hattrs.
  destruct (Connect_Ret_connected w w1 Hinv Hcon)
    as (g & c & Hg & Hc & Hproj & Hbs & Hcalls).
  apply handle_Some in Hg. destruct Hg as (a & Hs & Hg).
  pose proof (setBucket_run E w1 a g c name Hs Hg Hc) as Hrun. cbv zeta in Hrun.
  assert (Hlen : length (calls w1) = S (length (calls w)))
    by (rewrite Hcalls, length_app; simpl; lia).
  unfold service_attrs in Hrun. rewrite Hlen, Hattrs, Hbs in Hrun.
  rewrite bool_decide_eq_false_2 in Hrun by assumption.
  rewrite Hproj in Hrun.
  destruct (service_create E (S (S (length (calls w)))) (buckets w) name
              (getenv w "GOOGLE_CLOUD_PROJECT")) as [[e|] bs'];
    eexists _, _; (split; [exact Hrun|]); apply made_app; reflexivity.
Qed.

End MoreUploading.

(** ** The further properties at concrete inputs *)

Lemma reliable_is_reliable :
  reliable_storage Sim.reliable /\ reliable_encoder Sim.reliable.
Proof. repeat split; intros; reflexivity. Qed.

Lemma Upload_after_Connect_witness :
  one_handle (Sim.start Sim.vars Sim.disk) /\
  exists r w', Upload Sim.reliable "my-bucket" "notes.txt" Sim.connected = (Ret r, w').
Proof.
  assert (H : one_handle (Sim.start Sim.vars Sim.disk)) by (split; reflexivity).
  split; [exact H|].
  destruct (Upload_after_Connect Sim.reliable (Sim.start Sim.vars Sim.disk)
              Sim.connected "my-bucket" "notes.txt" H)
    as (r & w' & Hup & _).
  - vm_compute. reflexivity.
  - exists r, w'. exact Hup.
Defined.

Lemma Upload_succeeds_witness :
  exists w' o,
    Upload Sim.reliable "my-bucket" "notes.txt" Sim.connected = (Ret None, w') /\
    "my-bucket" ∈ buckets w' /\
    objects w' !! ("my-bucket", objectName "notes.txt") = Some o.
Proof.
  destruct (Upload_succeeds Sim.reliable Sim.connected Sim.handle0 0
              "my-bucket" "notes.txt" Sim.notes)
    as (w' & o & Hup & Hin & _ & _ & Ho & _).
  - exact (proj1 reliable_is_reliable).
  - exact (proj2 reliable_is_reliable).
  - reflexivity.
  - reflexivity.
  - reflexivity.
  - exists w', o. repeat split; assumption.
Defined.

(** The encoder cannot be left out of [Upload_succeeds]: with a storage
    service and a writer that are reliable otherwise, a flush that fails
    makes [Upload] return the error. *)
Lemma Upload_needs_reliable_encoder :
  reliable_storage Sim.lossy /\
  fst (Upload Sim.lossy "my-bucket" "notes.txt" Sim.connected) =
    Ret (Some Sim.broken).
Proof. split; [repeat split; intros; reflexivity | vm_compute; reflexivity]. Qed.

Lemma Upload_write_failure_witness :
  exists w' bh,
    bh_name bh = "my-bucket" /\
    Upload Sim.stalled "my-bucket" "notes.txt" Sim.connected =
      (Ret (Some Sim.reset), w') /\
    objects w' = objects Sim.connected.
Proof.
  destruct (Upload_write_failure Sim.stalled Sim.connected Sim.resolved
              "my-bucket" "notes.txt" Sim.notes Sim.reset)
    as (w' & bh & Hname & Hup & _ & Ho & _).
  - vm_compute. reflexivity.
  - reflexivity.
  - reflexivity.
  - exists w', bh. repeat split; assumption.
Defined.

Lemma Upload_close_failure_witness :
  exists w',
    Upload Sim.rejected "my-bucket" "notes.txt" Sim.connected =
      (Ret (Some Sim.reset), w') /\
    buckets w' = buckets Sim.resolved.
Proof.
  destruct (Upload_close_failure Sim.rejected Sim.connected Sim.resolved
              "my-bucket" "notes.txt" Sim.notes Sim.reset)
    as (w' & bh & e' & _ & Hup & He & _ & Hbs).
  - vm_compute. reflexivity.
  - reflexivity.
  - reflexivity.
  - reflexivity.
  - exists w'. split; [|exact Hbs]. rewrite Hup, He. reflexivity.
Defined.

Lemma Upload_unreadable_creates_bucket_witness :
  exists e w',
    Upload Sim.reliable "my-bucket" "nope.txt" Sim.connected = (Ret (Some e), w') /\
    buckets w' = {[ "my-bucket" ]} ∪ buckets Sim.connected.
Proof.
  destruct (Upload_unreadable_creates_bucket Sim.reliable Sim.connected Sim.handle0 0
              "my-bucket" "nope.txt")
    as (e & w' & Hup & _ & _ & Hbs & _).
  - reflexivity.
  - reflexivity.
  - apply (bool_decide_eq_false_1 _). reflexivity.
  - reflexivity.
  - reflexivity.
  - left. reflexivity.
  - exists e, w'. split; assumption.
Defined.

Lemma Upload_round_trip_witness :
  objects Sim.uploaded !! ("my-bucket", objectName "notes.txt") =
    Some {| o_contentType := "text/plain"; o_contentEncoding := "gzip";
            o_data := gzip Sim.reliable Sim.notes |} /\
  gunzip Sim.reliable (gzip Sim.reliable Sim.notes) = Some Sim.notes.
Proof.
  apply (Upload_round_trip Sim.reliable Sim.connected Sim.uploaded Sim.resolved
           "my-bucket" "notes.txt" Sim.notes).
  - exact unframe_frame.
  - reflexivity.
  - reflexivity.
  - reflexivity.
  - vm_compute. reflexivity.
Defined.

Lemma Upload_again_same_service_witness :
  exists w1 w2,
    Upload Sim.reliable "my-bucket" "notes.txt" Sim.connected = (Ret None, w1) /\
    Upload Sim.reliable "my-bucket" "notes.txt" w1 = (Ret None, w2) /\
    objects w2 = objects w1.
Proof.
  destruct (Upload_again_same_service Sim.reliable Sim.connected Sim.handle0 0
              "my-bucket" "notes.txt" Sim.notes)
    as (w1 & w2 & H1 & H2 & _ & _ & Ho & _).
  - exact (proj1 reliable_is_reliable).
  - exact (proj2 reliable_is_reliable).
  - reflexivity.
  - reflexivity.
  - reflexivity.
  - exists w1, w2. repeat split; assumption.
Defined.

Lemma Upload_two_files_witness :
  (exists w1 w2,
     Upload Sim.reliable "my-bucket" "notes.txt" Sim.shelved = (Ret None, w1) /\
     Upload Sim.reliable "my-bucket" "b/readme.txt" w1 = (Ret None, w2) /\
     objects w2 !! ("my-bucket", "readme.gzip") =
       Some (stored Sim.reliable Sim.memo) /\
     objects w2 !! ("my-bucket", "notes.gzip") =
       Some (stored Sim.reliable Sim.notes)) /\
  (exists w1 w2,
     Upload Sim.reliable "my-bucket" "notes.txt" Sim.shelved = (Ret None, w1) /\
     Upload Sim.reliable "my-bucket" "a/notes.md" w1 = (Ret None, w2) /\
     objects w2 !! ("my-bucket", "notes.gzip") =
       Some (stored Sim.reliable Sim.memo)).
Proof.
  split.
  - destruct (Upload_two_files Sim.reliable Sim.shelved Sim.handle0 0
                "my-bucket" "notes.txt" "b/readme.txt" Sim.notes Sim.memo)
      as (w1 & w2 & H1 & H2 & Ho2 & Ho1).
    + exact (proj1 reliable_is_reliable).
    + exact (proj2 reliable_is_reliable).
    + reflexivity.
    + reflexivity.
    + reflexivity.
    + reflexivity.
    + exists w1, w2. split; [exact H1|]. split; [exact H2|].
      split; [exact Ho2|exact Ho1].
  - destruct (Upload_two_files Sim.reliable Sim.shelved Sim.handle0 0
                "my-bucket" "notes.txt" "a/notes.md" Sim.notes Sim.memo)
      as (w1 & w2 & H1 & H2 & _ & Ho1).
    + exact (proj1 reliable_is_reliable).
    + exact (proj2 reliable_is_reliable).
    + reflexivity.
    + reflexivity.
    + reflexivity.
    + reflexivity.
    + exists w1, w2. split; [exact H1|]. split; [exact H2|exact Ho1].
Defined.

Lemma createClient_idempotent_witness :
  exists p w1,
    createClient Sim.connected = (Ret p, w1) /\ w1 = Sim.connected.
Proof.
  destruct (createClient_idempotent Sim.connected)
    as (p & w1 & Hrun & _ & _ & _ & Hsame & _).
  exists p, w1. split; [exact Hrun|]. apply Hsame. reflexivity.
Defined.

Lemma setBucket_uses_connected_project_witness :
  exists r w2,
    setBucket Sim.reliable "my-bucket" Sim.connected = (Ret r, w2) /\
    made Sim.connected w2 =
      [CallAttrs "my-bucket";
       CallCreate "my-bucket" (getenv (Sim.start Sim.vars Sim.disk) "GOOGLE_CLOUD_PROJECT")].
Proof.
  apply (setBucket_uses_connected_project Sim.reliable (Sim.start Sim.vars Sim.disk)
           Sim.connected "my-bucket").
  - split; reflexivity.
  - vm_compute. reflexivity.
  - apply (bool_decide_eq_false_1 _). reflexivity.
  - reflexivity.
Defined.
